(** * photorec-sorter: the reorganization drivers

    A shallow embedding of [recovery.py] (the stand-alone script, whose
    entry point is [main]) and of [photorec_sorter/recovery.py] (the
    packaged driver, whose entry point is [do_organization]), with the
    properties of the copy walk that the specification states.

    Modelling conventions.
    - A path is a [string]; letter case is significant, as on the file
      systems the tool is run on.  [Py.lower] and [Py.upper] are
      [str.lower] and [str.upper] on the strings that [str.isascii]
      accepts; beyond them the case mapping is that of the Unicode tables,
      which the model does not hold, so every property that rests on a law
      of case mapping is stated for ASCII names.
    - The file system is a finite map from paths to entries, directories
      and regular files.  A path is spelled in one way, and what the map
      does not hold does not exist.  A name that [os.walk] lists but that
      the map does not hold stands for a dangling symbolic link:
      [os.path.exists] and [os.path.isfile] answer [False] for it and
      opening it fails.
    - A new entry needs its parent: [os.mkdir] and the writing end of
      [shutil.copy2] fail on a path whose [os.path.dirname] is a regular
      file ([NotADirectoryError]) or does not exist
      ([FileNotFoundError]).  The current directory and the root are
      directories.
    - Python code runs in the monad [io]: a state transformer over the
      [world] whose outcome is a value or a raised exception.  The world
      is kept when an exception is raised, as what was written stays on
      disk.
    - [os.walk] is lazy and its order is that of the operating system, so
      what it yields is an input of the model: a list of directories, each
      with the names of its non-directory entries.  The destination is
      taken to lie outside the source tree, so the walk is a snapshot.
    - Failures of the operating system (permissions, a full disk) are
      outside the model. *)

From stdpp Require Import gmap strings list pretty.
From Stdlib Require Import Ascii.

(** * Python's string and path primitives *)

Module Py.

Definition is_ascii_upper (c : ascii) : bool :=
  (65 <=? nat_of_ascii c) && (nat_of_ascii c <=? 90).

Definition is_ascii_lower (c : ascii) : bool :=
  (97 <=? nat_of_ascii c) && (nat_of_ascii c <=? 122).

Definition char_lower (c : ascii) : ascii :=
  if is_ascii_upper c then ascii_of_nat (nat_of_ascii c + 32) else c.

Definition char_upper (c : ascii) : ascii :=
  if is_ascii_lower c then ascii_of_nat (nat_of_ascii c - 32) else c.

(** [s.isascii()] *)
Definition is_ascii_char (c : ascii) : bool := nat_of_ascii c <? 128.

Fixpoint isascii (s : string) : bool :=
  match s with
  | EmptyString => true
  | String c s' => is_ascii_char c && isascii s'
  end.

(** [s.lower()], for an [s] that [isascii] accepts *)
Fixpoint lower (s : string) : string :=
  match s with
  | EmptyString => EmptyString
  | String c s' => String (char_lower c) (lower s')
  end.

(** [s.upper()], for an [s] that [isascii] accepts *)
Fixpoint upper (s : string) : string :=
  match s with
  | EmptyString => EmptyString
  | String c s' => String (char_upper c) (upper s')
  end.

(** The truth value of a string: [if extension:]. *)
Definition truthy (s : string) : bool :=
  match s with EmptyString => false | String _ _ => true end.

(** [str(n)] for a non-negative [int]. *)
Definition str (n : nat) : string := pretty n.

(** [s.startswith(c)] and [s.endswith(c)] for a one-character [c]. *)
Definition startswith (c : ascii) (s : string) : bool :=
  match s with String a _ => Ascii.eqb a c | EmptyString => false end.

Fixpoint endswith (c : ascii) (s : string) : bool :=
  match s with
  | EmptyString => false
  | String a EmptyString => Ascii.eqb a c
  | String _ s' => endswith c s'
  end.

Fixpoint rfind_from (c : ascii) (s : string) (i last : Z) : Z :=
  match s with
  | EmptyString => last
  | String a s' => rfind_from c s' (i + 1) (if Ascii.eqb a c then i else last)
  end.

(** [s.rfind(c)]: the highest index of [c] in [s], or [-1]. *)
Definition rfind (c : ascii) (s : string) : Z := rfind_from c s 0 (-1).

(** [s[:i]] and [s[i:]] for [0 <= i]. *)
Fixpoint take (i : nat) (s : string) : string :=
  match i, s with
  | S i', String a s' => String a (take i' s')
  | _, _ => EmptyString
  end.

Fixpoint drop (i : nat) (s : string) : string :=
  match i, s with
  | S i', String _ s' => drop i' s'
  | _, _ => s
  end.

(** The loop of [genericpath._splitext] that skips leading dots: whether
    one of the [n] characters of [s] is not a dot. *)
Fixpoint has_non_dot (n : nat) (s : string) : bool :=
  match n, s with
  | S n', String a s' =>
      if Ascii.eqb a "." then has_non_dot n' s' else true
  | _, _ => false
  end.

(** [os.path.splitext(p)] of [posixpath]. *)
Definition splitext (p : string) : string * string :=
  let sepIndex := rfind "/" p in
  let dotIndex := rfind "." p in
  if (sepIndex <? dotIndex)%Z then
    let filenameIndex := (sepIndex + 1)%Z in
    if has_non_dot (Z.to_nat (dotIndex - filenameIndex))
                   (drop (Z.to_nat filenameIndex) p)
    then (take (Z.to_nat dotIndex) p, drop (Z.to_nat dotIndex) p)
    else (p, EmptyString)
  else (p, EmptyString).

(** [os.path.join(a, b)] of [posixpath]. *)
Definition join (a b : string) : string :=
  if startswith "/" b then b
  else if negb (truthy a) || endswith "/" a then a +:+ b
  else a +:+ "/" +:+ b.

(** [os.path.basename(p)] of [posixpath]. *)
Definition basename (p : string) : string :=
  drop (Z.to_nat (rfind "/" p + 1)) p.

(** [s.rstrip(c)] for a one-character [c]. *)
Fixpoint rstrip (c : ascii) (s : string) : string :=
  match s with
  | EmptyString => EmptyString
  | String a s' =>
      match rstrip c s' with
      | EmptyString => if Ascii.eqb a c then EmptyString else String a EmptyString
      | r => String a r
      end
  end.

(** [s == c*len(s)] *)
Fixpoint all_char (c : ascii) (s : string) : bool :=
  match s with
  | EmptyString => true
  | String a s' => Ascii.eqb a c && all_char c s'
  end.

(** [os.path.dirname(p)] of [posixpath]. *)
Definition dirname (p : string) : string :=
  let i := (rfind "/" p + 1)%Z in
  let head := take (Z.to_nat i) p in
  if truthy head && negb (all_char "/" head) then rstrip "/" head else head.

End Py.

(** * The world: file system, call log, exceptions *)

Inductive entry :=
  | Dir
  | File (content : string).

(** The calls that change the file system, in the order they were made. *)
Inductive call :=
  | Mkdir (path : string)
  | Copy2 (src dst : string)
  | PostprocessImages (dir : string) (minEventDeltaDays : Z) (splitMonths : bool)
  | LimitFilesPerFolder (dir : string) (maxNumberOfFilesPerFolder : Z).

Record world := World {
  files : gmap string entry;
  calls : list call
}.

Inductive exn :=
  | ValueError (msg : string)
  | FileNotFoundError (path : string)
  | FileExistsError (path : string)
  | IsADirectoryError (path : string)
  | NotADirectoryError (path : string)
  | SameFileError (src dst : string)
  | ZeroDivisionError
  | OtherError (msg : string)
  (** not a Python exception: the bound of a modelled [while] loop was
      reached ([probe_fuel_enough] shows that it never is) *)
  | FuelExhausted.

Inductive outcome (A : Type) :=
  | Ok (a : A)
  | Raise (e : exn).
Arguments Ok {A} a.
Arguments Raise {A} e.

Definition io (A : Type) : Type := world → world * outcome A.

#[global] Instance io_ret : MRet io := λ A a w, (w, Ok a).

#[global] Instance io_bind : MBind io := λ A B f m w,
  match m w with
  | (w', Ok a) => f a w'
  | (w', Raise e) => (w', Raise e)
  end.

Definition raise {A : Type} (e : exn) : io A := λ w, (w, Raise e).

Definition gets {A : Type} (f : world → A) : io A := λ w, (w, Ok (f w)).

Definition exists_in (fs : gmap string entry) (p : string) : bool :=
  match fs !! p with Some _ => true | None => false end.

Definition isdir_in (fs : gmap string entry) (p : string) : bool :=
  match fs !! p with Some Dir => true | _ => false end.

Definition isfile_in (fs : gmap string entry) (p : string) : bool :=
  match fs !! p with Some (File _) => true | _ => false end.

Definition os_path_exists (p : string) : io bool :=
  gets (λ w, exists_in (files w) p).

Definition os_path_isdir (p : string) : io bool :=
  gets (λ w, isdir_in (files w) p).

Definition os_path_isfile (p : string) : io bool :=
  gets (λ w, isfile_in (files w) p).

(** What stands in the way of a new entry at the path [p]: its parent
    [os.path.dirname(p)] has to be a directory.  An empty parent is the
    current directory and a parent made of separators is the root. *)
Definition parent_error (fs : gmap string entry) (p : string) : option exn :=
  let parent := Py.dirname p in
  if negb (Py.truthy parent) || Py.all_char "/" parent then None
  else match fs !! parent with
       | Some Dir => None
       | Some (File _) => Some (NotADirectoryError p)
       | None => Some (FileNotFoundError p)
       end.

(** [os.mkdir(p)] *)
Definition os_mkdir (p : string) : io unit := λ w,
  match files w !! p with
  | Some _ => (w, Raise (FileExistsError p))
  | None =>
      match parent_error (files w) p with
      | Some e => (w, Raise e)
      | None => (World (<[p := Dir]> (files w)) (calls w ++ [Mkdir p]), Ok tt)
      end
  end.

(** [image = open(p, 'rb')], with what [image] holds as its value. *)
Definition open_rb (p : string) : io string := λ w,
  match files w !! p with
  | Some (File c) => (w, Ok c)
  | Some Dir => (w, Raise (IsADirectoryError p))
  | None => (w, Raise (FileNotFoundError p))
  end.

(** [shutil.copy2(src, dst)]: into [dst] when it is a directory, onto it
    otherwise.  [copyfile] refuses to copy a file onto itself, then opens
    [src] for reading and [dst] for writing: an existing regular file is
    written over, a directory is refused, and a new file needs its
    parent. *)
Definition shutil_copy2 (src dst : string) : io unit := λ w,
  let dst := if isdir_in (files w) dst then Py.join dst (Py.basename src) else dst in
  if exists_in (files w) src && String.eqb src dst
  then (w, Raise (SameFileError src dst))
  else
    match files w !! src with
    | Some (File c) =>
        let written :=
          (World (<[dst := File c]> (files w)) (calls w ++ [Copy2 src dst]), Ok tt) in
        match files w !! dst with
        | Some (File _) => written
        | Some Dir => (w, Raise (IsADirectoryError dst))
        | None =>
            match parent_error (files w) dst with
            | Some e => (w, Raise e)
            | None => written
            end
        end
    | Some Dir => (w, Raise (IsADirectoryError src))
    | None => (w, Raise (FileNotFoundError src))
    end.

(** * What the drivers import *)

(** [time.struct_time]: the six fields that the two formats of the
    drivers read and print. *)
Record struct_time := StructTime {
  tm_year : N;
  tm_mon : N;
  tm_mday : N;
  tm_hour : N;
  tm_min : N;
  tm_sec : N
}.

(** The library functions and the two modules of the project
    ([jpgSorter], [numberOfFilesPerFolderLimiter]) that the drivers call.
    - [process_file image]: [exifread.process_file(image, details=False)],
      a mapping from tag names to values;
    - [getMinimumCreationTime exifTags]: [None], or a value given by what
      [str] makes of it;
    - [strptime string format]: [None] stands for the [ValueError] that
      [time.strptime] raises;
    - [postprocessImages] and [limitFilesPerFolder] act on the file
      system and may raise. *)
Class External := {
  process_file : string → gmap string string;
  getMinimumCreationTime : gmap string string → option string;
  strptime : string → string → option struct_time;
  strftime : string → struct_time → string;
  postprocessImages :
    string → Z → bool → gmap string entry → gmap string entry * outcome unit;
  limitFilesPerFolder :
    string → Z → gmap string entry → gmap string entry * outcome unit
}.

(** [str(creationTime)] *)
Definition str_creationTime (creationTime : option string) : string :=
  match creationTime with Some s => s | None => "None" end.

Definition jpgSorter_postprocessImages `{External}
    (dir : string) (minEventDeltaDays : Z) (splitMonths : bool) : io unit := λ w,
  let '(fs, r) := postprocessImages dir minEventDeltaDays splitMonths (files w) in
  (World fs (calls w ++ [PostprocessImages dir minEventDeltaDays splitMonths]), r).

Definition limiter_limitFilesPerFolder `{External}
    (dir : string) (maxNumberOfFilesPerFolder : Z) : io unit := λ w,
  let '(fs, r) := limitFilesPerFolder dir maxNumberOfFilesPerFolder (files w) in
  (World fs (calls w ++ [LimitFilesPerFolder dir maxNumberOfFilesPerFolder]), r).

(** [getNumberOfFilesInFolderRecursively(start_path)], the same in both
    files: the names of the walk that [os.path.isfile] accepts.  The count
    does not depend on the order of the walk. *)
Definition getNumberOfFilesInFolderRecursively
    (walk : list (string * list string)) : io nat :=
  gets (λ w,
    foldl (λ numberOfFiles '(dirpath, filenames),
             foldl (λ numberOfFiles f,
                      let fp := Py.join dirpath f in
                      if isfile_in (files w) fp then numberOfFiles + 1
                      else numberOfFiles)
                   numberOfFiles filenames)
          0 walk).

(** * The copy walk *)

(** The two drivers differ in the case of the directory name and in the
    directory of the files with no extension. *)
Inductive driver := Script | Package.

(** [.upper()] at line 97 of the script, [.lower()] at line 61 of the
    package. *)
Definition ext_case (d : driver) : string → string :=
  match d with Script => Py.upper | Package => Py.lower end.

(** Line 103 of the script, line 67 of the package. *)
Definition no_extension_dir (d : driver) : string :=
  match d with Script => "_NO_EXTENSION" | Package => "no_extension" end.

Section CopyWalk.
Context `{External}.
Variable d : driver.
Variable destination : string.
Variables enable_keep_filename enable_datetime_filename : bool.

(** [extension = os.path.splitext(file)[1][1:].lower()]
    ([.upper()] in the script) *)
Definition extension_of (file : string) : string :=
  ext_case d (Py.drop 1 (Py.splitext file).2).

(** [dest_directory] ([destinationDirectory] in the script) *)
Definition dest_directory_of (file : string) : string :=
  let extension := extension_of file in
  if Py.truthy extension then Py.join destination extension
  else Py.join destination (no_extension_dir d).

(** The [while] loop of the date-time policy, entered with the current
    [index] and [file_name]; [fuel] bounds its iterations. *)
Fixpoint probe (fuel : nat) (dest_directory creationTime extension : string)
    (index : nat) (file_name : string) : io string :=
  e ← os_path_exists (Py.join dest_directory file_name);
  if e : bool then
    match fuel with
    | 0 => raise FuelExhausted
    | S fuel' =>
        let index := index + 1 in
        let file_name :=
          creationTime +:+ "(" +:+ Py.str index +:+ ")" +:+ "." +:+ Py.lower extension in
        probe fuel' dest_directory creationTime extension index file_name
    end
  else mret file_name.

(** The choice of [file_name] ([fileName] in the script): lines 72-95 of
    the package, 108-131 of the script.  The bare [except] turns the
    [ValueError] of [strptime] into the original name. *)
Definition choose_file_name (root file : string) (cur_file_number : nat)
    : io string :=
  let extension := extension_of file in
  let source_file_path := Py.join root file in
  let dest_directory := dest_directory_of file in
  if enable_keep_filename then mret file
  else if enable_datetime_filename then
    let index := 0 in
    image ← open_rb source_file_path;
    let exifTags := process_file image in
    let creationTime := getMinimumCreationTime exifTags in
    match strptime (str_creationTime creationTime) "%Y:%m:%d %H:%M:%S" with
    | Some creationTime =>
        let creationTime := strftime "%Y%m%d_%H%M%S" creationTime in
        let file_name := creationTime +:+ "." +:+ Py.lower extension in
        fuel ← gets (λ w, size (files w));
        probe fuel dest_directory creationTime extension index file_name
    | None => mret file
    end
  else if Py.truthy extension then
    mret (Py.str cur_file_number +:+ "." +:+ Py.lower extension)
  else mret (Py.str cur_file_number).

(** One file of the walk up to the increment of the counter: lines 61-101
    of the package, 97-137 of the script. *)
Definition copy_file (root file : string) (cur_file_number : nat) : io nat :=
  let source_file_path := Py.join root file in
  let dest_directory := dest_directory_of file in
  e ← os_path_exists dest_directory;
  (if negb e then os_mkdir dest_directory else mret tt);;
  file_name ← choose_file_name root file cur_file_number;
  let dest_file_path := Py.join dest_directory file_name in
  e ← os_path_exists dest_file_path;
  (if negb e then shutil_copy2 source_file_path dest_file_path else mret tt);;
  mret (cur_file_number + 1).

(** [if (cur_file_number % log_frequency_file_count) == 0: logger.info(...)]:
    the log line is not part of the world, the division is. *)
Definition report_progress (log_frequency_file_count cur_file_number : nat)
    : io unit :=
  if log_frequency_file_count =? 0 then raise ZeroDivisionError else mret tt.

(** [for file in files:] *)
Fixpoint for_files (log_frequency_file_count : nat) (root : string)
    (filenames : list string) (cur_file_number : nat) : io nat :=
  match filenames with
  | [] => mret cur_file_number
  | file :: rest =>
      cur_file_number ← copy_file root file cur_file_number;
      report_progress log_frequency_file_count cur_file_number;;
      for_files log_frequency_file_count root rest cur_file_number
  end.

(** [for root, dirs, files in os.walk(source, topdown=False):] *)
Fixpoint for_walk (log_frequency_file_count : nat)
    (walk : list (string * list string)) (cur_file_number : nat) : io nat :=
  match walk with
  | [] => mret cur_file_number
  | (root, filenames) :: rest =>
      cur_file_number ←
        for_files log_frequency_file_count root filenames cur_file_number;
      for_walk log_frequency_file_count rest cur_file_number
  end.

End CopyWalk.

(** [onePercentFiles] in the script, [log_frequency_file_count] in the
    package; [int(n/100)] is [n // 100] for every count of files that a
    float holds exactly. *)
Definition log_frequency (total_file_count : nat) : nat :=
  if 100 <? total_file_count then total_file_count / 100 else total_file_count.

(** * The two entry points *)

Module Package.

(** [do_organization] of [photorec_sorter/recovery.py]; [walk] is what
    [os.walk(source, topdown=False)] yields. *)
Definition do_organization `{External} (walk : list (string * list string))
    (source destination : string) (max_files_per_folder : Z)
    (enable_split_months enable_keep_filename enable_datetime_filename : bool)
    (min_event_delta_days : Z) : io unit :=
  b ← os_path_isdir source;
  (if negb b
   then raise (ValueError ("Source directory does not exist: " +:+ source))
   else mret tt);;
  b ← os_path_isdir destination;
  (if negb b
   then raise (ValueError ("Destination directory does not exist: " +:+ destination))
   else mret tt);;
  total_file_count ← getNumberOfFilesInFolderRecursively walk;
  let log_frequency_file_count := log_frequency total_file_count in
  let cur_file_number := 0 in
  for_walk Package destination enable_keep_filename enable_datetime_filename
           log_frequency_file_count walk cur_file_number;;
  jpgSorter_postprocessImages (Py.join destination "JPG")
                              min_event_delta_days enable_split_months;;
  limiter_limitFilesPerFolder destination max_files_per_folder.

End Package.

Module Script.

(** What [get_args()] returns. *)
Record args := Args {
  source : string;
  destination : string;
  max_per_dir : Z;
  split_months : bool;
  keep_filename : bool;
  min_event_delta : Z;
  date_time_filename : bool
}.

(** [f"{totalAmountToCopy:,}"] at line 90: the value is a [str], and the
    format of a [str] refuses the thousands separator. *)
Definition format_comma_str (s : string) : io string :=
  raise (ValueError "Cannot specify ',' with 's'.").

(** [main] of [recovery.py]; [walk] is what
    [os.walk(source, topdown=False)] yields. *)
Definition main `{External} (walk : list (string * list string))
    (args : args) : io unit :=
  let source := source args in
  let destination := destination args in
  let maxNumberOfFilesPerFolder := max_per_dir args in
  let splitMonths := split_months args in
  let keepFilename := keep_filename args in
  let date_time_filename := date_time_filename args in
  let minEventDeltaDays := min_event_delta args in
  b ← os_path_isdir source;
  (if negb b
   then raise (ValueError ("Source directory does not exist: " +:+ source))
   else mret tt);;
  b ← os_path_isdir destination;
  (if negb b
   then raise (ValueError ("Destination directory does not exist: " +:+ destination))
   else mret tt);;
  fileNumber ← getNumberOfFilesInFolderRecursively walk;
  let onePercentFiles := log_frequency fileNumber in
  let totalAmountToCopy := Py.str fileNumber in
  format_comma_str totalAmountToCopy;;
  let fileCounter := 0 in
  for_walk Script destination keepFilename date_time_filename
           onePercentFiles walk fileCounter;;
  jpgSorter_postprocessImages (Py.join destination "JPG")
                              minEventDeltaDays splitMonths;;
  limiter_limitFilesPerFolder destination maxNumberOfFilesPerFolder.

End Script.

(** * Definitions used to state the properties *)

(** The names that the date-time policy tries, in the order of [index]:
    line 84 of the package for [index = 0], line 87 for the others (120
    and 123 of the script). *)
Definition candidate_name (creationTime extension : string) (index : nat) : string :=
  match index with
  | 0 => creationTime +:+ "." +:+ Py.lower extension
  | S _ => creationTime +:+ "(" +:+ Py.str index +:+ ")" +:+ "." +:+ Py.lower extension
  end.

(** The name of the sequential policy for the file numbered
    [cur_file_number]: lines 92-95 of the package, 128-131 of the script. *)
Definition sequential_name (d : driver) (cur_file_number : nat) (file : string)
    : string :=
  let extension := extension_of d file in
  if Py.truthy extension
  then Py.str cur_file_number +:+ "." +:+ Py.lower extension
  else Py.str cur_file_number.

(** [os.path.join] puts a prefix that depends on the directory alone before
    a relative name. *)
Definition join_prefix (a : string) : string :=
  if negb (Py.truthy a) || Py.endswith "/" a then a else a +:+ "/".

(** [if not os.path.exists(dest_directory): os.mkdir(dest_directory)] *)
Definition ensure_dir (p : string) : io unit :=
  e ← os_path_exists p;
  if negb e then os_mkdir p else mret tt.

(** [if not os.path.exists(dest_file_path): shutil.copy2(...)] *)
Definition copy_unless_exists (src dst : string) : io unit :=
  e ← os_path_exists dst;
  if negb e then shutil_copy2 src dst else mret tt.

(** The files of a walk in the order the loops meet them. *)
Definition walk_files (walk : list (string * list string))
    : list (string * string) :=
  flat_map (λ '(root, filenames), map (pair root) filenames) walk.

(** The two nested loops as one loop over [walk_files]. *)
Fixpoint for_flat `{External} (d : driver) (destination : string)
    (keep dt : bool) (log_frequency_file_count : nat)
    (l : list (string * string)) (cur_file_number : nat) : io nat :=
  match l with
  | [] => mret cur_file_number
  | (root, file) :: rest =>
      cur_file_number ← copy_file d destination keep dt root file cur_file_number;
      report_progress log_frequency_file_count cur_file_number;;
      for_flat d destination keep dt log_frequency_file_count rest cur_file_number
  end.

(** [os.path.isdir(source)] and [os.path.isdir(destination)], the two
    checks that both drivers make before anything else. *)
Definition directories_exist (source destination : string) (w : world) : bool :=
  isdir_in (files w) source && isdir_in (files w) destination.

(** The count and the copy walk of [do_organization]: lines 50-103. *)
Definition copy_phase `{External} (walk : list (string * list string))
    (destination : string) (keep dt : bool) : io nat :=
  total_file_count ← getNumberOfFilesInFolderRecursively walk;
  for_walk Package destination keep dt (log_frequency total_file_count) walk 0.

(** Whether the character [c] does not occur in [s]. *)
Fixpoint no_char (c : ascii) (s : string) : bool :=
  match s with
  | EmptyString => true
  | String a s' => negb (Ascii.eqb a c) && no_char c s'
  end.

(** The name of the directory of a file below the destination: the
    extension in the case of the driver, or the directory of the files
    with no extension. *)
Definition bucket_of (d : driver) (file : string) : string :=
  let extension := extension_of d file in
  if Py.truthy extension then extension else no_extension_dir d.

(** The name that the keep-original and the sequential policy give to the
    file numbered [cur_file_number]; it does not depend on the world. *)
Definition fixed_name (d : driver) (keep : bool) (cur_file_number : nat)
    (file : string) : string :=
  if keep then file else sequential_name d cur_file_number file.

(** * A sample of the imported functions

    The general theorems hold for every [External]; the closed examples
    run the drivers with this one.  A file's content stands for the value
    of its [EXIF DateTimeOriginal] tag, the two formats of the drivers are
    read and printed digit by digit, and the two project modules leave the
    file system as it is.  The sample reads a time whose fields have their
    full width and name a day of the calendar; [time.strptime] reads
    shorter fields too, which no example uses. *)

Module Sample.

Definition digit (c : ascii) : option N :=
  let n := N_of_ascii c in
  if ((48 <=? n) && (n <=? 57))%N then Some (n - 48)%N else None.

Fixpoint number (s : string) (acc : N) : option N :=
  match s with
  | EmptyString => Some acc
  | String c s' =>
      match digit c with
      | Some v => number s' (10 * acc + v)%N
      | None => None
      end
  end.

Definition field (s : string) (start len : nat) : option N :=
  number (Py.take len (Py.drop start s)) 0%N.

Definition sep (s : string) (i : nat) (c : ascii) : bool :=
  match String.get i s with Some a => Ascii.eqb a c | None => false end.

Definition leap (Y : N) : bool :=
  ((Y mod 4 =? 0) && negb (Y mod 100 =? 0) || (Y mod 400 =? 0))%N.

Definition days_in_month (Y M : N) : N :=
  if (M =? 2)%N then (if leap Y then 29 else 28)%N
  else if ((M =? 4) || (M =? 6) || (M =? 9) || (M =? 11))%N then 30%N
  else 31%N.

(** ["YYYY:MM:DD HH:MM:SS"], each field of full width and in range. *)
Definition parse_exif (s : string) : option struct_time :=
  if (String.length s =? 19) && sep s 4 ":" && sep s 7 ":" && sep s 10 " "
     && sep s 13 ":" && sep s 16 ":"
  then
    Y ← field s 0 4; M ← field s 5 2; D ← field s 8 2;
    h ← field s 11 2; m ← field s 14 2; sec ← field s 17 2;
    if ((1 <=? Y) && (1 <=? M) && (M <=? 12) && (1 <=? D)
        && (D <=? days_in_month Y M)
        && (h <=? 23) && (m <=? 59) && (sec <=? 61))%N
    then Some (StructTime Y M D h m sec)
    else None
  else None.

Definition pad (width : nat) (n : N) : string :=
  let s := pretty n in
  String.concat "" (replicate (width - String.length s) "0") +:+ s.

(** ["%Y%m%d_%H%M%S"]: the year as it is, the other fields on two
    digits. *)
Definition print_name (t : struct_time) : string :=
  pretty (tm_year t) +:+ pad 2 (tm_mon t) +:+ pad 2 (tm_mday t) +:+ "_"
  +:+ pad 2 (tm_hour t) +:+ pad 2 (tm_min t) +:+ pad 2 (tm_sec t).

#[local] Instance library : External := {|
  process_file image :=
    if Py.truthy image then {[ "EXIF DateTimeOriginal" := image ]} else ∅;
  getMinimumCreationTime exifTags := exifTags !! "EXIF DateTimeOriginal";
  strptime s format :=
    if String.eqb format "%Y:%m:%d %H:%M:%S" then parse_exif s else None;
  strftime format t :=
    if String.eqb format "%Y%m%d_%H%M%S" then print_name t else "";
  postprocessImages _ _ _ fs := (fs, Ok tt);
  limitFilesPerFolder _ _ fs := (fs, Ok tt)
|}.

(** A source tree with two photographs taken in the same second, a text
    file and a file with no extension. *)
Definition tree : gmap string entry :=
  list_to_map [
    ("src", Dir); ("dst", Dir);
    ("src/f1.JPG", File "2021:12:31 23:58:00");
    ("src/f2.jpg", File "2021:12:31 23:58:00");
    ("src/notes.txt", File "");
    ("src/README", File "")
  ].

Definition walk : list (string * list string) :=
  [("src", ["f1.JPG"; "f2.jpg"; "notes.txt"; "README"])].

(** The tree of [tree] once a photograph of the same second has been
    copied. *)
Definition tree_taken : gmap string entry :=
  <["dst/jpg/20211231_235800.jpg" := File "2021:12:31 23:58:00"]>
    (<["dst/jpg" := Dir]> tree).

(** A source whose only entry is a dangling symbolic link, and a
    destination that holds a file of its name from an earlier run. *)
Definition dangling_tree : gmap string entry :=
  list_to_map [
    ("src", Dir); ("dst", Dir); ("dst/txt", Dir);
    ("dst/txt/lost.txt", File "kept")
  ].

Definition dangling_walk : list (string * list string) :=
  [("src", ["lost.txt"])].

(** Two files of the same name in two directories of the source. *)
Definition twins_tree : gmap string entry :=
  list_to_map [
    ("src", Dir); ("src/a", Dir); ("src/b", Dir); ("dst", Dir);
    ("src/a/x.jpg", File "first"); ("src/b/x.jpg", File "second")
  ].

Definition twins_walk : list (string * list string) :=
  [("src/a", ["x.jpg"]); ("src/b", ["x.jpg"]); ("src", [])].

(** A destination in which a regular file has the name of the directory
    of the text files. *)
Definition blocked_tree : gmap string entry :=
  list_to_map [
    ("src", Dir); ("dst", Dir);
    ("src/notes.txt", File "text"); ("dst/txt", File "blocker")
  ].

Definition blocked_walk : list (string * list string) :=
  [("src", ["notes.txt"])].

End Sample.

(** * The timestamp resolver (section 4.1 of the specification) *)

Module Resolver.

(** Python compares [struct_time] values as tuples: field by field. *)
Definition time_key (t : struct_time) : list N :=
  [tm_year t; tm_mon t; tm_mday t; tm_hour t; tm_min t; tm_sec t].

Fixpoint lex_leb (a b : list N) : bool :=
  match a, b with
  | [], _ => true
  | _ :: _, [] => false
  | x :: a', y :: b' =>
      match (x ?= y)%N with
      | Lt => true
      | Gt => false
      | Eq => lex_leb a' b'
      end
  end.

Definition time_leb (a b : struct_time) : bool :=
  lex_leb (time_key a) (time_key b).

Definition earlier (a b : struct_time) : struct_time :=
  if time_leb a b then a else b.

Definition minimum (l : list struct_time) : option struct_time :=
  match l with
  | [] => None
  | t :: l' => Some (foldl earlier t l')
  end.

(** The candidates of a mapping that parse in the fixed format, in the
    order of the recognised fields. *)
Definition parsed_candidates `{External} (fields : list string)
    (candidates : gmap string string) : list struct_time :=
  omap (λ field, candidates !! field ≫= λ raw, strptime raw "%Y:%m:%d %H:%M:%S")
       fields.

(** Modelled from the spec: [jpgSorter.getMinimumCreationTime] is not among
    the sources.  Section 4.1: [resolve(candidates)] parses the fields that
    carry a capture time in the fixed format, returns the earliest value that
    parsed and "unknown" ([None]) when none did.  [fields] is the explicit
    list of recognised fields; any other field of the mapping is absent. *)
Definition resolve `{External} (fields : list string)
    (candidates : gmap string string) : option struct_time :=
  minimum (parsed_candidates fields candidates).

End Resolver.

(** * The capacity partitioner (section 4.3 of the specification) *)

Module Partitioner.

#[local] Set Warnings "-register-all".

(** A directory: its direct files in their existing order, and its
    sub-directories by name. *)
Inductive tree :=
  | Node (members : list string) (subdirs : list (string * tree)).

(** A move of one file between two directories. *)
Record move := Move { moved : string; from_dir : string; to_dir : string }.

(** Contiguous groups of at most [size] files, in order; [fuel] bounds the
    number of groups. *)
Fixpoint groups (fuel size : nat) (l : list string) : list (list string) :=
  match fuel, l with
  | S fuel', _ :: _ => take size l :: groups fuel' size (drop size l)
  | _, _ => []
  end.

(** The numbered sub-directories that hold the groups: [1], [2], ... *)
Fixpoint numbered (n : nat) (gs : list (list string)) : list (string * tree) :=
  match gs with
  | [] => []
  | g :: gs' => (Py.str n, Node g []) :: numbered (S n) gs'
  end.

Fixpoint group_moves (dir : string) (n : nat) (gs : list (list string))
    : list move :=
  match gs with
  | [] => []
  | g :: gs' =>
      map (λ f, Move f dir (Py.join dir (Py.str n))) g
      ++ group_moves dir (S n) gs'
  end.

(** The names of the entries of a directory. *)
Definition names (members : list string) (subdirs : list (string * tree))
    : list string :=
  members ++ subdirs.*1.

(** Whether the sub-directories [new] can be created in a directory: none
    of them has the name of an entry that the directory holds. *)
Definition creatable (new : list (string * tree)) (members : list string)
    (subdirs : list (string * tree)) : bool :=
  forallb (λ d, negb (bool_decide (d.1 ∈ names members subdirs))) new.

(** Modelled from the spec: [numberOfFilesPerFolderLimiter.limitFilesPerFolder]
    is not among the sources.  Section 4.3: [partition(directory,
    maxPerDirectory)] with [maxPerDirectory] a positive integer works
    post-order; a directory with at most [maxPerDirectory] direct files is
    left alone, the files of any other are split in their order into
    contiguous groups of at most [maxPerDirectory], each moved into a
    numbered sub-directory that is created for it.  The specification
    does not say what happens when an entry of the directory already has
    the name of a sub-directory to be created: there the result is
    [None]. *)
Fixpoint partition (maxPerDirectory : positive) (t : tree) : option tree :=
  match t with
  | Node members subdirs =>
      subdirs' ← mapM (λ d, t' ← partition maxPerDirectory d.2; Some (d.1, t'))
                      subdirs;
      if length members <=? Pos.to_nat maxPerDirectory
      then Some (Node members subdirs')
      else
        let new := numbered 1 (groups (length members)
                                      (Pos.to_nat maxPerDirectory) members) in
        if creatable new members subdirs
        then Some (Node [] (subdirs' ++ new))
        else None
  end.

(** The moves that [partition] performs where it has a result, in order. *)
Fixpoint moves (maxPerDirectory : positive) (dir : string) (t : tree)
    : list move :=
  match t with
  | Node members subdirs =>
      flat_map (λ d, moves maxPerDirectory (Py.join dir d.1) d.2) subdirs
      ++ (if length members <=? Pos.to_nat maxPerDirectory then []
          else group_moves dir 1 (groups (length members)
                                         (Pos.to_nat maxPerDirectory) members))
  end.

(** Every directory of the tree holds at most [maxPerDirectory] direct
    files. *)
Fixpoint compliant (maxPerDirectory : positive) (t : tree) : bool :=
  match t with
  | Node members subdirs =>
      (length members <=? Pos.to_nat maxPerDirectory)
      && forallb (λ d, compliant maxPerDirectory d.2) subdirs
  end.

(** A tree that a file system can hold: the entries of a directory have
    different names. *)
Fixpoint well_formed (t : tree) : bool :=
  match t with
  | Node members subdirs =>
      bool_decide (NoDup (names members subdirs))
      && forallb (λ d, well_formed d.2) subdirs
  end.

(** No directory with more than [maxPerDirectory] direct files holds an
    entry with the name of one of the sub-directories that its files are
    to be moved into. *)
Fixpoint clash_free (maxPerDirectory : positive) (t : tree) : bool :=
  match t with
  | Node members subdirs =>
      forallb (λ d, clash_free maxPerDirectory d.2) subdirs
      && ((length members <=? Pos.to_nat maxPerDirectory)
          || creatable (numbered 1 (groups (length members)
                                           (Pos.to_nat maxPerDirectory) members))
                       members subdirs)
  end.

(** Induction on a tree with the hypothesis for every sub-directory. *)
Fixpoint tree_ind' (P : tree → Prop)
    (step : ∀ members subdirs,
        Forall (λ d, P d.2) subdirs → P (Node members subdirs))
    (t : tree) : P t :=
  match t with
  | Node members subdirs =>
      step members subdirs
        ((fix go (ds : list (string * tree)) : Forall (λ d, P d.2) ds :=
            match ds with
            | [] => List.Forall_nil _
            | d :: ds' =>
                List.Forall_cons _ d ds' (tree_ind' P step d.2) (go ds')
            end) subdirs)
  end.

End Partitioner.

(** * Proofs *)

Example splitext_jpg : Py.splitext "f0001.JPG" = ("f0001", ".JPG").
Proof. reflexivity. Qed.

Example splitext_hidden : Py.splitext ".bashrc" = (".bashrc", "").
Proof. reflexivity. Qed.

Example splitext_two_dots : Py.splitext "a.tar.gz" = ("a.tar", ".gz").
Proof. reflexivity. Qed.

Example join_relative : Py.join "dst" "JPG" = "dst/JPG".
Proof. reflexivity. Qed.

Example join_slash : Py.join "dst/" "JPG" = "dst/JPG".
Proof. reflexivity. Qed.

Example upper_lower : Py.upper "jPg" = "JPG" ∧ Py.lower "jPg" = "jpg".
Proof. split; reflexivity. Qed.

(** * Strings *)

Lemma append_nil (b : string) : EmptyString +:+ b = b.
Proof. reflexivity. Qed.

Lemma append_cons (x : ascii) (a b : string) :
  String x a +:+ b = String x (a +:+ b).
Proof. reflexivity. Qed.

Lemma append_assoc (a b c : string) : (a +:+ b) +:+ c = a +:+ b +:+ c.
Proof.
  induction a as [|x a IH]; [done|]. by rewrite !append_cons, IH.
Qed.

Lemma append_length (a b : string) :
  String.length (a +:+ b) = String.length a + String.length b.
Proof.
  induction a as [|x a IH]; [done|]. rewrite append_cons. simpl. by rewrite IH.
Qed.

Lemma append_inj_r (a b c : string) : a +:+ c = b +:+ c → a = b.
Proof.
  revert b. induction a as [|x a IH]; intros [|y b] Heq.
  - done.
  - apply (f_equal String.length) in Heq.
    rewrite append_nil, append_cons in Heq. simpl in Heq.
    rewrite append_length in Heq. lia.
  - apply (f_equal String.length) in Heq.
    rewrite append_nil, append_cons in Heq. simpl in Heq.
    rewrite append_length in Heq. lia.
  - rewrite !append_cons in Heq. injection Heq as -> Heq. f_equal. by apply IH.
Qed.

Lemma startswith_append (c : ascii) (a b : string) :
  Py.startswith c (a +:+ b) =
  match a with EmptyString => Py.startswith c b | _ => Py.startswith c a end.
Proof. by destruct a. Qed.

Lemma join_relative_prefix (a b : string) :
  Py.startswith "/" b = false → Py.join a b = join_prefix a +:+ b.
Proof.
  intros Hb. unfold Py.join, join_prefix. rewrite Hb.
  destruct (negb (Py.truthy a) || Py.endswith "/" a); [done|].
  by rewrite append_assoc.
Qed.

Lemma join_absolute (a b : string) :
  Py.startswith "/" b = true → Py.join a b = b.
Proof. intros Hb. unfold Py.join. by rewrite Hb. Qed.

(** Two names that share their first part and continue with a character
    other than the separator are joined to different paths. *)
Lemma join_common_inj (a ct s1 s2 : string) :
  Py.startswith "/" s1 = false → Py.startswith "/" s2 = false →
  s1 ≠ EmptyString → s2 ≠ EmptyString →
  Py.join a (ct +:+ s1) = Py.join a (ct +:+ s2) → s1 = s2.
Proof.
  intros H1 H2 N1 N2 Heq.
  destruct (Py.startswith "/" (ct +:+ s1)) eqn:E1.
  - assert (Py.startswith "/" (ct +:+ s2) = true) as E2.
    { rewrite startswith_append in E1 |- *. destruct ct; [congruence | done]. }
    rewrite !join_absolute in Heq by done. by apply (inj _) in Heq.
  - assert (Py.startswith "/" (ct +:+ s2) = false) as E2.
    { rewrite startswith_append in E1 |- *. destruct ct; [congruence | done]. }
    rewrite !join_relative_prefix in Heq by done.
    apply (inj _) in Heq. by apply (inj _) in Heq.
Qed.

Lemma candidate_name_inj (a ct ext : string) (i j : nat) :
  Py.join a (candidate_name ct ext i) = Py.join a (candidate_name ct ext j) →
  i = j.
Proof.
  intros Heq. unfold candidate_name in Heq.
  destruct i as [|i], j as [|j]; [done| | |];
    apply join_common_inj in Heq; try done.
  rewrite !append_cons, !append_nil in Heq. injection Heq as Heq.
  apply append_inj_r in Heq. by apply (inj pretty) in Heq.
Qed.

Lemma startswith_cons (c a : ascii) (s : string) :
  Py.startswith c (String a s) = Ascii.eqb a c.
Proof. reflexivity. Qed.

(** A path joined to a directory starts as the directory does, or with
    the separator. *)
Lemma join_startswith (c : ascii) (dir name : string) :
  Py.startswith c dir = false → dir ≠ EmptyString → c ≠ "/"%char →
  Py.startswith c (Py.join dir name) = false.
Proof.
  intros Hdir Hne Hc. unfold Py.join.
  destruct dir as [|b dir]; [done|]. rewrite startswith_cons in Hdir.
  assert (∀ s, Py.startswith c (String b dir +:+ s) = false) as Hrel.
  { intros s. by rewrite append_cons, startswith_cons. }
  destruct name as [|a name]; [by destruct (_ || _)|].
  rewrite startswith_cons. destruct (Ascii.eqb_spec a "/") as [->|Ha].
  - rewrite startswith_cons. apply Ascii.eqb_neq. congruence.
  - by destruct (_ || _).
Qed.

(** * Characters of names and paths *)

Lemma no_char_cons (c a : ascii) (s : string) :
  no_char c (String a s) = negb (Ascii.eqb a c) && no_char c s.
Proof. reflexivity. Qed.

Lemma no_char_append (c : ascii) (a b : string) :
  no_char c (a +:+ b) = no_char c a && no_char c b.
Proof.
  induction a as [|x a IH]; [done|].
  by rewrite append_cons, !no_char_cons, IH, andb_assoc.
Qed.

Lemma no_char_drop (c : ascii) (n : nat) (s : string) :
  no_char c s = true → no_char c (Py.drop n s) = true.
Proof.
  revert s. induction n as [|n IH]; intros [|a s]; try done.
  rewrite no_char_cons. intros [_ Hs]%andb_true_iff. by apply IH.
Qed.

Lemma no_char_startswith (c : ascii) (s : string) :
  no_char c s = true → Py.startswith c s = false.
Proof.
  destruct s as [|a s]; [done|]. rewrite no_char_cons, startswith_cons.
  intros [Ha _]%andb_true_iff. by apply negb_true_iff.
Qed.

Lemma no_char_endswith (c : ascii) (s : string) :
  no_char c s = true → Py.endswith c s = false.
Proof.
  induction s as [|a s IH]; [done|]. rewrite no_char_cons.
  intros [Ha Hs]%andb_true_iff. destruct s as [|b s].
  - by apply negb_true_iff.
  - by apply IH.
Qed.

(** A string is cut in one way only at the first occurrence of a
    character. *)
Lemma split_at_char (c : ascii) (a a' b b' : string) :
  no_char c a = true → no_char c a' = true →
  a +:+ String c b = a' +:+ String c b' → a = a' ∧ b = b'.
Proof.
  revert a'. induction a as [|x a IH]; intros [|y a'] Ha Ha' Heq.
  - rewrite !append_nil in Heq. by injection Heq.
  - rewrite append_nil, append_cons in Heq. injection Heq as <- _.
    rewrite no_char_cons, Ascii.eqb_refl in Ha'. done.
  - rewrite append_nil, append_cons in Heq. injection Heq as -> _.
    rewrite no_char_cons, Ascii.eqb_refl in Ha. done.
  - rewrite !append_cons in Heq. injection Heq as -> Heq.
    rewrite no_char_cons in Ha, Ha'.
    apply andb_true_iff in Ha as [_ Ha]. apply andb_true_iff in Ha' as [_ Ha'].
    destruct (IH a' Ha Ha' Heq) as [-> ->]. done.
Qed.

Lemma endswith_append (c : ascii) (a b : string) :
  b ≠ EmptyString → Py.endswith c (a +:+ b) = Py.endswith c b.
Proof.
  intros Hb. induction a as [|x a IH]; [done|]. rewrite append_cons.
  destruct (a +:+ b) as [|y s] eqn:E.
  - destruct a; [by rewrite append_nil in E | by rewrite append_cons in E].
  - exact IH.
Qed.

Lemma truthy_append (a b : string) :
  Py.truthy b = true → Py.truthy (a +:+ b) = true.
Proof. destruct a; [done | by rewrite append_cons]. Qed.

(** ** [rfind] and [splitext] *)

Lemma rfind_from_spec (c : ascii) (s : string) (i last : Z) :
  let r := Py.rfind_from c s i last in
  (r = last ∧ no_char c s = true)
  ∨ ((i ≤ r)%Z ∧ no_char c (Py.drop (Z.to_nat (r - i) + 1) s) = true).
Proof.
  revert i last. induction s as [|a s IH]; intros i last; [by left|].
  cbv zeta. simpl Py.rfind_from.
  destruct (IH (i + 1)%Z (if Ascii.eqb a c then i else last)) as [[Hr Hs] | [Hr Hs]].
  - destruct (Ascii.eqb a c) eqn:E.
    + right. rewrite Hr. split; [lia|]. by rewrite Z.sub_diag.
    + left. split; [done|]. by rewrite no_char_cons, E.
  - right. split; [lia|].
    replace (Z.to_nat (Py.rfind_from c s (i + 1) (if Ascii.eqb a c then i else last) - i) + 1)
      with (S (Z.to_nat (Py.rfind_from c s (i + 1) (if Ascii.eqb a c then i else last) - (i + 1)) + 1))
      by lia.
    exact Hs.
Qed.

Lemma drop_drop (n m : nat) (s : string) :
  Py.drop n (Py.drop m s) = Py.drop (m + n) s.
Proof.
  revert s. induction m as [|m IH]; intros s; [done|].
  destruct s as [|a s]; [by destruct n|]. simpl. apply IH.
Qed.

(** Nothing after the last separator is a separator. *)
Lemma no_char_after_rfind (c : ascii) (s : string) (i : Z) :
  (Py.rfind c s < i)%Z → no_char c (Py.drop (Z.to_nat i) s) = true.
Proof.
  intros Hi. unfold Py.rfind in Hi.
  destruct (rfind_from_spec c s 0 (-1)) as [[_ Hs] | [Hr Hs]].
  - by apply no_char_drop.
  - cbv zeta in *.
    replace (Z.to_nat i)
      with ((Z.to_nat (Py.rfind_from c s 0 (-1) - 0) + 1)
            + (Z.to_nat i - (Z.to_nat (Py.rfind_from c s 0 (-1) - 0) + 1)))
      by lia.
    rewrite <-drop_drop. by apply no_char_drop.
Qed.

(** The extension that [splitext] cuts off holds no separator. *)
Lemma splitext_no_sep (p : string) : no_char "/" (Py.splitext p).2 = true.
Proof.
  unfold Py.splitext. cbv zeta.
  destruct (Py.rfind "/" p <? Py.rfind "." p)%Z eqn:E; [|done].
  apply Z.ltb_lt in E. destruct (Py.has_non_dot _ _); [|done].
  by apply no_char_after_rfind.
Qed.

(** The extension without its dot holds neither a separator nor a dot. *)
Lemma raw_extension_plain (p : string) :
  no_char "/" (Py.drop 1 (Py.splitext p).2) = true ∧
  no_char "." (Py.drop 1 (Py.splitext p).2) = true.
Proof.
  split; [apply no_char_drop, splitext_no_sep|].
  unfold Py.splitext. cbv zeta.
  destruct (Py.rfind "/" p <? Py.rfind "." p)%Z eqn:E; [|done].
  apply Z.ltb_lt in E. destruct (Py.has_non_dot _ _); [|done].
  cbn [snd]. rewrite drop_drop.
  assert (0 ≤ Py.rfind "." p)%Z as Hpos.
  { unfold Py.rfind in *.
    destruct (rfind_from_spec "/" p 0 (-1)) as [[Hr _] | [Hr _]];
      cbv zeta in Hr; lia. }
  replace (Z.to_nat (Py.rfind "." p) + 1) with (Z.to_nat (Py.rfind "." p + 1))
    by lia.
  apply no_char_after_rfind. lia.
Qed.

(** What [splitext] cuts is the whole path. *)
Lemma take_drop_string (n : nat) (s : string) : Py.take n s +:+ Py.drop n s = s.
Proof.
  revert s. induction n as [|n IH]; intros [|a s]; try done.
  simpl. by rewrite append_cons, IH.
Qed.

Lemma splitext_whole (p : string) : (Py.splitext p).1 +:+ (Py.splitext p).2 = p.
Proof.
  unfold Py.splitext. cbv zeta.
  assert (p +:+ EmptyString = p) as Hnil.
  { induction p as [|a p IH]; [done|]. by rewrite append_cons, IH. }
  destruct (_ <? _)%Z; [|done]. destruct (Py.has_non_dot _ _); [|done].
  apply take_drop_string.
Qed.

(** ** Case mapping and decimal numbers *)

Lemma char_case_sep (a : ascii) :
  Ascii.eqb (Py.char_lower a) "/" = Ascii.eqb a "/" ∧
  Ascii.eqb (Py.char_upper a) "/" = Ascii.eqb a "/".
Proof. by destruct a as [[] [] [] [] [] [] [] []]. Qed.

(** The separator occurs in a string as it does in its lower-case and
    upper-case forms. *)
Lemma no_sep_case (s : string) :
  no_char "/" (Py.lower s) = no_char "/" s ∧
  no_char "/" (Py.upper s) = no_char "/" s.
Proof.
  induction s as [|a s [IHl IHu]]; [done|]. simpl.
  destruct (char_case_sep a) as [-> ->]. by rewrite IHl, IHu.
Qed.

Lemma pretty_N_go_no_char (c : ascii) (x : N) (s : string) :
  (∀ digit, pretty_N_char digit ≠ c) →
  no_char c s = true → no_char c (pretty_N_go x s) = true.
Proof.
  intros Hc. revert s. induction (N.lt_wf_0 x) as [x _ IH]; intros s Hs.
  destruct (decide (x = 0)%N) as [->|Hx]; [by rewrite pretty_N_go_0|].
  rewrite pretty_N_go_step by lia. apply IH; [apply N.div_lt; lia|].
  rewrite no_char_cons, Hs, andb_true_r. apply negb_true_iff, Ascii.eqb_neq, Hc.
Qed.

(** [str(n)] is made of digits. *)
Lemma str_no_char (c : ascii) (n : nat) :
  (∀ digit, pretty_N_char digit ≠ c) → no_char c (Py.str n) = true.
Proof.
  intros Hc. unfold Py.str, pretty, pretty_nat, pretty, pretty_N.
  destruct (decide _).
  - change "0" with (String (pretty_N_char 0) EmptyString).
    rewrite no_char_cons. cbn [no_char]. rewrite andb_true_r.
    apply negb_true_iff, Ascii.eqb_neq, Hc.
  - by apply pretty_N_go_no_char.
Qed.

Lemma digit_not_sep (digit : N) : pretty_N_char digit ≠ "/"%char.
Proof. unfold pretty_N_char. by repeat case_match. Qed.

Lemma digit_not_dot (digit : N) : pretty_N_char digit ≠ "."%char.
Proof. unfold pretty_N_char. by repeat case_match. Qed.


Lemma rfind_from_absent (c : ascii) (s : string) (i last : Z) :
  no_char c s = true → Py.rfind_from c s i last = last.
Proof.
  revert i last. induction s as [|a s IH]; intros i last; [done|].
  rewrite no_char_cons. intros [Ha Hs]%andb_true_iff. simpl.
  apply negb_true_iff in Ha as ->. by apply IH.
Qed.

Lemma rfind_from_last (c : ascii) (s1 s2 : string) (i last : Z) :
  no_char c s2 = true →
  Py.rfind_from c (s1 +:+ String c s2) i last
  = (i + Z.of_nat (String.length s1))%Z.
Proof.
  intros Hs2. revert i last. induction s1 as [|a s1 IH]; intros i last.
  - rewrite append_nil. simpl. rewrite Ascii.eqb_refl, rfind_from_absent by done.
    lia.
  - rewrite append_cons. simpl. rewrite IH. lia.
Qed.

Lemma drop_length_append (s1 s2 : string) :
  Py.drop (String.length s1) (s1 +:+ s2) = s2.
Proof. induction s1 as [|a s1 IH]; [by destruct s2|]. by rewrite append_cons. Qed.

(** ** [dirname] *)

Lemma take_length_append (s1 s2 : string) :
  Py.take (String.length s1) (s1 +:+ s2) = s1.
Proof.
  induction s1 as [|a s1 IH]; [by destruct s2|].
  rewrite append_cons. simpl. by rewrite IH.
Qed.

Lemma rstrip_cons (c x : ascii) (s : string) :
  Py.rstrip c (String x s)
  = match Py.rstrip c s with
    | EmptyString => if Ascii.eqb x c then EmptyString else String x EmptyString
    | r => String x r
    end.
Proof. reflexivity. Qed.

Lemma all_char_cons (c x : ascii) (s : string) :
  Py.all_char c (String x s) = Ascii.eqb x c && Py.all_char c s.
Proof. reflexivity. Qed.

Lemma rstrip_append_sep (c : ascii) (a : string) :
  a ≠ EmptyString → Py.endswith c a = false →
  Py.rstrip c (a +:+ String c EmptyString) = a.
Proof.
  induction a as [|x a IH]; [done|]. intros _ Hend. rewrite append_cons.
  destruct a as [|y a].
  - rewrite append_nil. simpl in *. by rewrite Ascii.eqb_refl, Hend.
  - rewrite rstrip_cons, IH by done. done.
Qed.

Lemma all_char_append_sep (c : ascii) (a : string) :
  a ≠ EmptyString → Py.endswith c a = false →
  Py.all_char c (a +:+ String c EmptyString) = false.
Proof.
  induction a as [|x a IH]; [done|]. intros _ Hend. rewrite append_cons.
  destruct a as [|y a].
  - rewrite append_nil. simpl in *. by rewrite Hend.
  - rewrite all_char_cons, IH by done. apply andb_false_r.
Qed.

(** A name with no separator has no directory part. *)
Lemma dirname_plain (b : string) :
  no_char "/" b = true → Py.dirname b = EmptyString.
Proof.
  intros Hb. unfold Py.dirname, Py.rfind. rewrite rfind_from_absent by done.
  by destruct b.
Qed.

(** The directory part of a name joined to a directory is the directory. *)
Lemma dirname_join (a b : string) :
  Py.endswith "/" a = false → no_char "/" b = true →
  Py.dirname (Py.join a b) = a.
Proof.
  intros Ha Hb. unfold Py.join. rewrite (no_char_startswith _ _ Hb), Ha.
  destruct a as [|x a]; [by apply dirname_plain|]. simpl negb. simpl orb.
  set (dir := String x a) in *.
  assert (dir ≠ EmptyString) as Hne by done. clearbody dir.
  rewrite append_cons, append_nil. unfold Py.dirname, Py.rfind.
  rewrite rfind_from_last by done.
  replace (Z.to_nat (0 + Z.of_nat (String.length dir) + 1))
    with (String.length (dir +:+ String "/" EmptyString))
    by (rewrite append_length; simpl; lia).
  replace (dir +:+ String "/" b) with ((dir +:+ String "/" EmptyString) +:+ b)
    by (by rewrite append_assoc, append_cons, append_nil).
  rewrite take_length_append.
  rewrite truthy_append by done.
  rewrite all_char_append_sep by done. simpl.
  by apply rstrip_append_sep.
Qed.

(** ** Case mapping *)

Lemma isascii_cons (c : ascii) (s : string) :
  Py.isascii (String c s) = Py.is_ascii_char c && Py.isascii s.
Proof. reflexivity. Qed.

Lemma isascii_drop (n : nat) (s : string) :
  Py.isascii s = true → Py.isascii (Py.drop n s) = true.
Proof.
  revert s. induction n as [|n IH]; intros [|a s]; try done.
  rewrite isascii_cons. intros [_ Hs]%andb_true_iff. by apply IH.
Qed.

(** The extension of an ASCII name is ASCII. *)
Lemma raw_extension_ascii (p : string) :
  Py.isascii p = true → Py.isascii (Py.drop 1 (Py.splitext p).2) = true.
Proof.
  intros Hp. apply isascii_drop. unfold Py.splitext. cbv zeta.
  destruct (_ <? _)%Z; [|done]. destruct (Py.has_non_dot _ _); [|done].
  by apply isascii_drop.
Qed.

Lemma char_lower_upper (c : ascii) :
  Py.is_ascii_char c = true →
  Py.char_lower (Py.char_upper c) = Py.char_lower c.
Proof. by destruct c as [[] [] [] [] [] [] [] []]. Qed.

Lemma lower_upper (s : string) :
  Py.isascii s = true → Py.lower (Py.upper s) = Py.lower s.
Proof.
  induction s as [|c s IH]; [done|]. rewrite isascii_cons.
  intros [Hc Hs]%andb_true_iff. simpl. by rewrite char_lower_upper, IH.
Qed.

Lemma char_lower_lower (c : ascii) :
  Py.is_ascii_char c = true →
  Py.char_lower (Py.char_lower c) = Py.char_lower c.
Proof. by destruct c as [[] [] [] [] [] [] [] []]. Qed.

Lemma lower_lower (s : string) :
  Py.isascii s = true → Py.lower (Py.lower s) = Py.lower s.
Proof.
  induction s as [|c s IH]; [done|]. rewrite isascii_cons.
  intros [Hc Hs]%andb_true_iff. simpl. by rewrite char_lower_lower, IH.
Qed.

Lemma char_upper_lower (c : ascii) :
  Py.is_ascii_char c = true →
  Py.char_upper (Py.char_lower c) = Py.char_upper c.
Proof. by destruct c as [[] [] [] [] [] [] [] []]. Qed.

Lemma upper_of_lower (s : string) :
  Py.isascii s = true → Py.upper (Py.lower s) = Py.upper s.
Proof.
  induction s as [|c s IH]; [done|]. rewrite isascii_cons.
  intros [Hc Hs]%andb_true_iff. simpl. by rewrite char_upper_lower, IH.
Qed.

Lemma char_upper_upper (c : ascii) :
  Py.is_ascii_char c = true →
  Py.char_upper (Py.char_upper c) = Py.char_upper c.
Proof. by destruct c as [[] [] [] [] [] [] [] []]. Qed.

Lemma upper_idem (s : string) :
  Py.isascii s = true → Py.upper (Py.upper s) = Py.upper s.
Proof.
  induction s as [|c s IH]; [done|]. rewrite isascii_cons.
  intros [Hc Hs]%andb_true_iff. simpl. by rewrite char_upper_upper, IH.
Qed.

(** The case mapping of a string is empty when the string is. *)
Lemma truthy_upper (s : string) : Py.truthy (Py.upper s) = Py.truthy s.
Proof. by destruct s. Qed.

Lemma truthy_lower (s : string) : Py.truthy (Py.lower s) = Py.truthy s.
Proof. by destruct s. Qed.


(** * The shape of the destination paths *)

Lemma extension_no_sep (d : driver) (file : string) :
  no_char "/" (extension_of d file) = true.
Proof.
  unfold extension_of. destruct (raw_extension_plain file) as [Hsep _].
  destruct d; simpl; [rewrite (proj2 (no_sep_case _)) | rewrite (proj1 (no_sep_case _))];
    exact Hsep.
Qed.

Lemma bucket_plain (d : driver) (file : string) :
  Py.truthy (bucket_of d file) = true ∧ no_char "/" (bucket_of d file) = true.
Proof.
  unfold bucket_of. cbv zeta. destruct (Py.truthy (extension_of d file)) eqn:E.
  - split; [done | apply extension_no_sep].
  - by destruct d.
Qed.

Lemma dest_directory_join (d : driver) (destination file : string) :
  dest_directory_of d destination file = Py.join destination (bucket_of d file).
Proof.
  unfold dest_directory_of, bucket_of. cbv zeta.
  by destruct (Py.truthy (extension_of d file)).
Qed.

Lemma dest_directory_bucket (d : driver) (destination file : string) :
  dest_directory_of d destination file
  = join_prefix destination +:+ bucket_of d file.
Proof.
  rewrite dest_directory_join. apply join_relative_prefix, no_char_startswith.
  apply bucket_plain.
Qed.

Lemma join_prefix_component (a b : string) :
  Py.truthy b = true → no_char "/" b = true →
  join_prefix (a +:+ b) = a +:+ b +:+ "/".
Proof.
  intros Hb Hsep. unfold join_prefix.
  rewrite truthy_append by done.
  rewrite endswith_append by (by destruct b).
  rewrite no_char_endswith by done. simpl. apply append_assoc.
Qed.

(** The path of a file in its directory: the destination, the bucket and
    the name. *)
Lemma target_path (d : driver) (destination file name : string) :
  no_char "/" name = true →
  Py.join (dest_directory_of d destination file) name
  = join_prefix destination +:+ bucket_of d file +:+ String "/" name.
Proof.
  intros Hname. destruct (bucket_plain d file) as [Hne Hsep].
  rewrite join_relative_prefix by (by apply no_char_startswith).
  rewrite dest_directory_bucket, join_prefix_component by done.
  by rewrite !append_assoc.
Qed.

Lemma target_ne_directory (d : driver) (destination file file' name : string) :
  no_char "/" name = true →
  Py.join (dest_directory_of d destination file) name
  ≠ dest_directory_of d destination file'.
Proof.
  intros Hname Heq. rewrite target_path, dest_directory_bucket in Heq by done.
  apply (inj _) in Heq.
  destruct (bucket_plain d file') as [_ Hsep]. rewrite <-Heq in Hsep.
  rewrite no_char_append, no_char_cons, Ascii.eqb_refl in Hsep.
  by rewrite andb_false_r in Hsep.
Qed.

Lemma target_inj (d : driver) (destination file file' name name' : string) :
  no_char "/" name = true → no_char "/" name' = true →
  Py.join (dest_directory_of d destination file) name
  = Py.join (dest_directory_of d destination file') name' →
  bucket_of d file = bucket_of d file' ∧ name = name'.
Proof.
  intros Hname Hname' Heq. rewrite !target_path in Heq by done.
  apply (inj _) in Heq.
  apply split_at_char in Heq; [done|apply bucket_plain..].
Qed.

Lemma sequential_name_no_sep (d : driver) (k : nat) (file : string) :
  no_char "/" (sequential_name d k file) = true.
Proof.
  unfold sequential_name. cbv zeta.
  pose proof (str_no_char "/" k digit_not_sep) as Hk.
  destruct (Py.truthy _); [|done].
  rewrite !no_char_append, Hk, (proj1 (no_sep_case _)), extension_no_sep. done.
Qed.

(** Two files of the sequential policy have the same name only when they
    have the same number. *)
Lemma sequential_name_inj (d : driver) (k j : nat) (file file' : string) :
  sequential_name d k file = sequential_name d j file' → k = j.
Proof.
  unfold sequential_name. cbv zeta. intros Heq.
  pose proof (str_no_char "." k digit_not_dot) as Hk.
  pose proof (str_no_char "." j digit_not_dot) as Hj.
  destruct (Py.truthy (extension_of d file)), (Py.truthy (extension_of d file')).
  - apply split_at_char in Heq as [Heq _]; [|done..].
    by apply (inj pretty) in Heq.
  - rewrite <-Heq, no_char_append in Hj.
    apply andb_true_iff in Hj as [_ Hj]. done.
  - rewrite Heq, no_char_append in Hk.
    apply andb_true_iff in Hk as [_ Hk]. done.
  - by apply (inj pretty) in Heq.
Qed.

(** The directory of a file is spelled without a separator at its end, so
    the directory part of a plain name in it is the directory itself. *)
Lemma dest_directory_no_slash (d : driver) (destination file : string) :
  Py.endswith "/" (dest_directory_of d destination file) = false.
Proof.
  destruct (bucket_plain d file) as [Hne Hsep].
  rewrite dest_directory_bucket, endswith_append.
  - by apply no_char_endswith.
  - by destruct (bucket_of d file).
Qed.

Lemma dirname_dest_directory (d : driver) (destination file : string) :
  Py.endswith "/" destination = false →
  Py.dirname (dest_directory_of d destination file) = destination.
Proof.
  intros Hd. rewrite dest_directory_join. apply dirname_join; [done|].
  apply bucket_plain.
Qed.

Lemma dirname_target (d : driver) (destination file name : string) :
  no_char "/" name = true →
  Py.dirname (Py.join (dest_directory_of d destination file) name)
  = dest_directory_of d destination file.
Proof. intros Hname. apply dirname_join; [apply dest_directory_no_slash|done]. Qed.
(** * The monad *)

Lemma bind_run {A B : Type} (m : io A) (f : A → io B) (w : world) :
  (m ≫= f) w = match m w with
               | (w', Ok a) => f a w'
               | (w', Raise e) => (w', Raise e)
               end.
Proof. reflexivity. Qed.

(** * The file system *)

Lemma exists_in_true (fs : gmap string entry) (p : string) :
  exists_in fs p = true ↔ is_Some (fs !! p).
Proof.
  unfold exists_in. destruct (fs !! p); split; intros Hx; try done.
Qed.

Lemma exists_in_false (fs : gmap string entry) (p : string) :
  exists_in fs p = false ↔ fs !! p = None.
Proof. unfold exists_in. by destruct (fs !! p). Qed.

(** Finitely many paths exist: distinct paths that all exist are fewer
    than the entries of the file system. *)
Lemma taken_bound (fs : gmap string entry) (f : nat → string) (n : nat) :
  (∀ i j, f i = f j → i = j) →
  (∀ j, j ≤ n → exists_in fs (f j) = true) →
  n < size fs.
Proof.
  intros Hinj Htaken.
  assert (NoDup (f <$> seq 0 (S n))) as Hnd.
  { apply NoDup_fmap_2_strong; [|apply NoDup_seq]. intros; by apply Hinj. }
  assert (list_to_set (C := gset string) (f <$> seq 0 (S n)) ⊆ dom fs) as Hsub.
  { intros p Hp. apply elem_of_list_to_set, list_elem_of_fmap in Hp
      as (j & -> & Hj).
    apply elem_of_seq in Hj. apply elem_of_dom, exists_in_true, Htaken. lia. }
  apply subseteq_size in Hsub.
  rewrite size_list_to_set, length_fmap, length_seq, size_dom in Hsub by done.
  lia.
Qed.

(** * The probing loop of the date-time policy *)

Section Probe.
Variables dest_directory creationTime extension : string.

Let taken (w : world) (j : nat) : Prop :=
  exists_in (files w)
            (Py.join dest_directory (candidate_name creationTime extension j))
  = true.

Lemma probe_spec (fuel index : nat) (w w' : world) (r : outcome string) :
  probe fuel dest_directory creationTime extension index
        (candidate_name creationTime extension index) w = (w', r) →
  w' = w ∧
  ((∃ k, index ≤ k ≤ index + fuel ∧
         r = Ok (candidate_name creationTime extension k) ∧
         ¬ taken w k ∧ ∀ j, index ≤ j < k → taken w j)
   ∨ (r = Raise FuelExhausted ∧ ∀ j, index ≤ j ≤ index + fuel → taken w j)).
Proof.
  revert index. induction fuel as [|fuel IH]; intros index Hrun.
  - cbn in Hrun. unfold mbind, io_bind, os_path_exists, gets in Hrun.
    destruct (exists_in _ _) eqn:E.
    + injection Hrun as <- <-. split; [done|]. right. split; [done|].
      intros j Hj. assert (j = index) as -> by lia. exact E.
    + injection Hrun as <- <-. split; [done|]. left. exists index.
      repeat split; [lia..| |intros; lia].
      unfold taken. by rewrite E.
  - cbn in Hrun. unfold mbind, io_bind, os_path_exists, gets in Hrun.
    destruct (exists_in _ _) eqn:E.
    + fold (probe fuel) in Hrun.
      replace (creationTime +:+ "(" +:+ Py.str (index + 1) +:+ ")" +:+ "."
               +:+ Py.lower extension)
        with (candidate_name creationTime extension (index + 1)) in Hrun
        by (by rewrite Nat.add_1_r).
      apply IH in Hrun as [-> Hrun]. split; [done|].
      destruct Hrun as [(k & Hk & -> & Hfree & Hbelow) | [-> Hall]].
      * left. exists k. repeat split; [lia..|done|].
        intros j Hj. destruct (decide (j = index)) as [->|]; [exact E|].
        apply Hbelow. lia.
      * right. split; [done|]. intros j Hj.
        destruct (decide (j = index)) as [->|]; [exact E|]. apply Hall. lia.
    + injection Hrun as <- <-. split; [done|]. left. exists index.
      repeat split; [lia..| |intros; lia].
      unfold taken. by rewrite E.
Qed.

(** The fuel that [choose_file_name] gives to the loop is never used up. *)
Lemma probe_fuel_enough (w w' : world) (r : outcome string) :
  probe (size (files w)) dest_directory creationTime extension 0
        (candidate_name creationTime extension 0) w = (w', r) →
  r ≠ Raise FuelExhausted.
Proof.
  intros Hrun ->. apply probe_spec in Hrun as [_ [(k & _ & Hk & _) | [_ Hall]]];
    [done|].
  pose proof (taken_bound (files w)
    (λ j, Py.join dest_directory (candidate_name creationTime extension j))
    (size (files w))) as Hbound.
  simpl in Hbound. assert (size (files w) < size (files w)); [|lia].
  apply Hbound.
  - intros i j. apply candidate_name_inj.
  - intros j Hj. apply Hall. lia.
Qed.

End Probe.


(** ** Making a directory and copying a file *)

Lemma exists_in_mono (fs fs' : gmap string entry) (p : string) :
  fs ⊆ fs' → exists_in fs p = true → exists_in fs' p = true.
Proof.
  intros Hsub [e He]%exists_in_true. apply exists_in_true.
  exists e. by eapply lookup_weaken.
Qed.

Lemma isdir_in_mono (fs fs' : gmap string entry) (p : string) :
  fs ⊆ fs' → isdir_in fs p = true → isdir_in fs' p = true.
Proof.
  intros Hsub. unfold isdir_in. destruct (fs !! p) as [[|c]|] eqn:E; try done.
  by rewrite (lookup_weaken _ _ _ _ E Hsub).
Qed.

Lemma isfile_in_mono (fs fs' : gmap string entry) (p : string) :
  fs ⊆ fs' → isfile_in fs p = true → isfile_in fs' p = true.
Proof.
  intros Hsub. unfold isfile_in. destruct (fs !! p) as [[|c]|] eqn:E; try done.
  by rewrite (lookup_weaken _ _ _ _ E Hsub).
Qed.

(** Nothing stands in the way of a new entry in a directory. *)
Lemma parent_error_isdir (fs : gmap string entry) (p : string) :
  isdir_in fs (Py.dirname p) = true → parent_error fs p = None.
Proof.
  unfold parent_error, isdir_in. destruct (negb _ || _); [done|].
  by destruct (fs !! Py.dirname p) as [[|c]|].
Qed.

(** A regular file in the place of the parent does. *)
Lemma parent_error_isfile (fs : gmap string entry) (p : string) :
  isfile_in fs (Py.dirname p) = true →
  Py.truthy (Py.dirname p) = true → Py.all_char "/" (Py.dirname p) = false →
  parent_error fs p = Some (NotADirectoryError p).
Proof.
  unfold parent_error, isfile_in. intros Hfile -> ->. simpl.
  by destruct (fs !! Py.dirname p) as [[|c]|].
Qed.

Lemma parent_error_inv (fs : gmap string entry) (p : string) (e : exn) :
  parent_error fs p = Some e →
  (e = NotADirectoryError p ∧ isfile_in fs (Py.dirname p) = true)
  ∨ (e = FileNotFoundError p ∧ fs !! Py.dirname p = None).
Proof.
  unfold parent_error, isfile_in. destruct (negb _ || _); [done|].
  destruct (fs !! Py.dirname p) as [[|c]|]; intros [= <-]; auto.
Qed.

Lemma ensure_dir_run (p : string) (w : world) :
  ensure_dir p w =
  if exists_in (files w) p then (w, Ok tt)
  else match parent_error (files w) p with
       | Some e => (w, Raise e)
       | None => (World (<[p := Dir]> (files w)) (calls w ++ [Mkdir p]), Ok tt)
       end.
Proof.
  unfold ensure_dir, mbind, io_bind, os_path_exists, gets, os_mkdir.
  destruct (exists_in (files w) p) eqn:E; simpl; [done|].
  apply exists_in_false in E. by rewrite E.
Qed.

Lemma copy_unless_exists_run (src dst : string) (w : world) :
  copy_unless_exists src dst w =
  if exists_in (files w) dst then (w, Ok tt)
  else match files w !! src with
       | Some (File c) =>
           match parent_error (files w) dst with
           | Some e => (w, Raise e)
           | None =>
               (World (<[dst := File c]> (files w)) (calls w ++ [Copy2 src dst]),
                Ok tt)
           end
       | Some Dir => (w, Raise (IsADirectoryError src))
       | None => (w, Raise (FileNotFoundError src))
       end.
Proof.
  unfold copy_unless_exists, mbind, io_bind, os_path_exists, gets.
  destruct (exists_in (files w) dst) eqn:E; simpl; [done|].
  unfold shutil_copy2, isdir_in. apply exists_in_false in E as E'.
  cbv zeta. rewrite !E'.
  assert (exists_in (files w) src && String.eqb src dst = false) as ->.
  { destruct (String.eqb_spec src dst) as [->|]; [|apply andb_false_r].
    by rewrite E. }
  by destruct (files w !! src) as [[|c]|].
Qed.

(** What the two guarded calls leave in place, whatever their outcome. *)
Lemma ensure_dir_files (p : string) (w w' : world) (r : outcome unit) :
  ensure_dir p w = (w', r) → files w ⊆ files w'.
Proof.
  rewrite ensure_dir_run. destruct (exists_in _ _) eqn:E; [by intros [= <- _]|].
  apply exists_in_false in E.
  destruct (parent_error _ _); intros [= <- _]; [done|].
  by apply insert_subseteq.
Qed.

Lemma ensure_dir_calls (p : string) (w w' : world) (r : outcome unit) :
  ensure_dir p w = (w', r) →
  ∃ evs, calls w' = calls w ++ evs ∧
         size (files w') = size (files w) + length evs ∧
         ∀ c, c ∈ evs → c = Mkdir p.
Proof.
  rewrite ensure_dir_run.
  assert (∃ evs : list call, calls w = calls w ++ evs ∧
            size (files w) = size (files w) + length evs ∧
            ∀ c, c ∈ evs → c = Mkdir p) as Hnone.
  { exists []. rewrite app_nil_r, Nat.add_0_r. split; [done|]. split; [done|].
    intros c Hc. by apply not_elem_of_nil in Hc. }
  destruct (exists_in _ _) eqn:E; [by intros [= <- _]|].
  apply exists_in_false in E.
  destruct (parent_error _ _); intros [= <- _]; [done|].
  exists [Mkdir p]. split; [done|]. simpl.
  rewrite map_size_insert_None by done. split; [lia|].
  by intros c ->%list_elem_of_singleton.
Qed.

Lemma ensure_dir_exists (p : string) (w w' : world) :
  ensure_dir p w = (w', Ok tt) → exists_in (files w') p = true.
Proof.
  rewrite ensure_dir_run. destruct (exists_in (files w) p) eqn:E.
  - by intros [= <-].
  - destruct (parent_error _ _); intros [= <-].
    apply exists_in_true. simpl. rewrite lookup_insert_eq. eauto.
Qed.

Lemma ensure_dir_lookup (p q : string) (e : entry) (w w' : world)
    (r : outcome unit) :
  ensure_dir q w = (w', r) → files w !! p = Some e → files w' !! p = Some e.
Proof.
  intros Hrun Hp. eapply lookup_weaken; [done | by eapply ensure_dir_files].
Qed.

Lemma copy_unless_exists_files src dst w w' r :
  copy_unless_exists src dst w = (w', r) → files w ⊆ files w'.
Proof.
  rewrite copy_unless_exists_run. destruct (exists_in _ _) eqn:E.
  - by intros [= <- _].
  - apply exists_in_false in E.
    destruct (files w !! src) as [[|c]|]; [by intros [= <- _]| |by intros [= <- _]].
    destruct (parent_error _ _); intros [= <- _]; [done|].
    by apply insert_subseteq.
Qed.

Lemma copy_unless_exists_calls src dst w w' r :
  copy_unless_exists src dst w = (w', r) →
  ∃ evs, calls w' = calls w ++ evs ∧
         size (files w') = size (files w) + length evs ∧
         ∀ c, c ∈ evs → c = Copy2 src dst.
Proof.
  rewrite copy_unless_exists_run.
  assert (∃ evs : list call, calls w = calls w ++ evs ∧
            size (files w) = size (files w) + length evs ∧
            ∀ c, c ∈ evs → c = Copy2 src dst) as Hnone.
  { exists []. rewrite app_nil_r, Nat.add_0_r. split; [done|]. split; [done|].
    intros c Hc. by apply not_elem_of_nil in Hc. }
  destruct (exists_in _ _) eqn:E; [by intros [= <- _]|].
  apply exists_in_false in E.
  destruct (files w !! src) as [[|c]|]; [by intros [= <- _]| |by intros [= <- _]].
  destruct (parent_error _ _); intros [= <- _]; [done|].
  exists [Copy2 src dst]. split; [done|]. simpl.
  rewrite map_size_insert_None by done. split; [lia|].
  by intros c' ->%list_elem_of_singleton.
Qed.

Lemma copy_unless_exists_ok src dst w w' :
  copy_unless_exists src dst w = (w', Ok tt) →
  exists_in (files w') dst = true.
Proof.
  rewrite copy_unless_exists_run. destruct (exists_in _ _) eqn:E.
  - by intros [= <-].
  - destruct (files w !! src) as [[|c]|]; [done| |done].
    destruct (parent_error _ _); intros [= <-].
    apply exists_in_true. simpl. rewrite lookup_insert_eq. eauto.
Qed.

(** A guarded call raises for the source, or for a destination that does
    not exist and has no directory for a parent. *)
Lemma ensure_dir_raise (p : string) (w w' : world) (e : exn) :
  ensure_dir p w = (w', Raise e) →
  w' = w ∧ files w !! p = None ∧ parent_error (files w) p = Some e.
Proof.
  rewrite ensure_dir_run. destruct (exists_in _ _) eqn:E; [done|].
  apply exists_in_false in E.
  destruct (parent_error _ _); intros [= <- <-]; done.
Qed.

Lemma copy_unless_exists_raise src dst w w' e :
  copy_unless_exists src dst w = (w', Raise e) →
  w' = w ∧ files w !! dst = None ∧
  ((e = FileNotFoundError src ∧ files w !! src = None)
   ∨ (e = IsADirectoryError src ∧ files w !! src = Some Dir)
   ∨ (isfile_in (files w) src = true ∧ parent_error (files w) dst = Some e)).
Proof.
  rewrite copy_unless_exists_run. destruct (exists_in _ _) eqn:E; [done|].
  apply exists_in_false in E. unfold isfile_in.
  destruct (files w !! src) as [[|c]|].
  - intros [= <- <-]. do 2 (split; [done|]). right. by left.
  - destruct (parent_error _ _); intros [= <- <-].
    do 2 (split; [done|]). right. by right.
  - intros [= <- <-]. do 2 (split; [done|]). by left.
Qed.

(** * One file of the walk *)

Section OneFile.
Context `{External}.
Variable d : driver.
Variable destination : string.

Lemma choose_file_name_world keep dt root file n w w' r :
  choose_file_name d destination keep dt root file n w = (w', r) → w' = w.
Proof.
  unfold choose_file_name. destruct keep; [by intros [= <- _]|].
  destruct dt.
  - unfold mbind, io_bind, open_rb.
    destruct (files w !! Py.join root file) as [[|image]|];
      [by intros [= <- _]| |by intros [= <- _]].
    destruct (strptime _ _); [|by intros [= <- _]].
    unfold gets. intros Hrun.
    by apply (probe_spec _ _ _ _ 0) in Hrun as [-> _].
  - destruct (Py.truthy _); by intros [= <- _].
Qed.

(** A step is the making of the directory, the choice of the name and the
    copy, unless one of them raises. *)
Lemma copy_file_unfold keep dt root file n w :
  copy_file d destination keep dt root file n w =
  let dest_directory := dest_directory_of d destination file in
  match ensure_dir dest_directory w with
  | (w1, Ok _) =>
      match choose_file_name d destination keep dt root file n w1 with
      | (_, Ok file_name) =>
          match copy_unless_exists (Py.join root file)
                                   (Py.join dest_directory file_name) w1 with
          | (w2, Ok _) => (w2, Ok (n + 1))
          | (w2, Raise e) => (w2, Raise e)
          end
      | (_, Raise e) => (w1, Raise e)
      end
  | (w1, Raise e) => (w1, Raise e)
  end.
Proof.
  unfold copy_file, ensure_dir, copy_unless_exists. cbv zeta.
  unfold mbind, io_bind, os_path_exists, gets, mret, io_ret.
  assert (∀ w1, match choose_file_name d destination keep dt root file n w1 with
                | (w2, r) => w2 = w1 end) as Hpure.
  { intros w1. destruct (choose_file_name _ _ _ _ _ _ _ w1) eqn:E.
    by apply choose_file_name_world in E. }
  destruct (negb (exists_in (files w) _)).
  - destruct (os_mkdir _ w) as [w1 [[]|e]]; [|done].
    specialize (Hpure w1).
    destruct (choose_file_name _ _ _ _ _ _ _ w1) as [w2 [name|e]]; subst w2;
      [|done].
    destruct (negb (exists_in (files w1) _)); [|done].
    by destruct (shutil_copy2 _ _ w1) as [w3 [[]|e]].
  - specialize (Hpure w).
    destruct (choose_file_name _ _ _ _ _ _ _ w) as [w2 [name|e]]; subst w2;
      [|done].
    destruct (negb (exists_in (files w) _)); [|done].
    by destruct (shutil_copy2 _ _ w) as [w3 [[]|e]].
Qed.

End OneFile.

Section Steps.
Context `{External}.
Variable d : driver.
Variable destination : string.
Variables keep dt : bool.

Lemma copy_file_step root file n w w' r :
  copy_file d destination keep dt root file n w = (w', r) →
  let dest_directory := dest_directory_of d destination file in
  ∃ w1 rd, ensure_dir dest_directory w = (w1, rd) ∧
    match rd with
    | Raise e => w' = w1 ∧ r = Raise e
    | Ok _ =>
        ∃ rn, choose_file_name d destination keep dt root file n w1 = (w1, rn) ∧
          match rn with
          | Raise e => w' = w1 ∧ r = Raise e
          | Ok file_name =>
              ∃ ru, copy_unless_exists (Py.join root file)
                      (Py.join dest_directory file_name) w1 = (w', ru) ∧
                    r = match ru with Ok _ => Ok (n + 1) | Raise e => Raise e end
          end
    end.
Proof.
  rewrite copy_file_unfold. cbv zeta.
  destruct (ensure_dir _ w) as [w1 rd] eqn:Edir. intros Hrun.
  exists w1, rd. split; [done|]. destruct rd as [[]|e]; cycle 1.
  { by injection Hrun as <- <-. }
  destruct (choose_file_name _ _ _ _ _ _ _ _) as [w2 rn] eqn:E.
  pose proof (choose_file_name_world _ _ _ _ _ _ _ _ _ _ E) as ->.
  exists rn. split; [done|]. destruct rn as [name|e].
  - destruct (copy_unless_exists _ _ _) as [w3 ru] eqn:E2. exists ru.
    destruct ru; injection Hrun as <- <-; done.
  - by injection Hrun as <- <-.
Qed.

(** What a step does to the world: it only adds, one entry for each of
    its calls, which are the [mkdir] of the directory of the file and
    the [copy2] of the file under the name chosen for it; and when it
    ends, the counter has advanced and the directory and the chosen path
    exist. *)
Lemma copy_file_calls root file n w w' r :
  copy_file d destination keep dt root file n w = (w', r) →
  let dest_directory := dest_directory_of d destination file in
  files w ⊆ files w' ∧
  ∃ evs, calls w' = calls w ++ evs ∧
    size (files w') = size (files w) + length evs ∧
    (∀ c, c ∈ evs →
       c = Mkdir dest_directory ∨
       ∃ w1 file_name,
         choose_file_name d destination keep dt root file n w1
           = (w1, Ok file_name) ∧
         c = Copy2 (Py.join root file) (Py.join dest_directory file_name)) ∧
    (∀ m, r = Ok m →
       m = n + 1 ∧ exists_in (files w') dest_directory = true ∧
       ∃ w1 file_name,
         choose_file_name d destination keep dt root file n w1
           = (w1, Ok file_name) ∧
         exists_in (files w') (Py.join dest_directory file_name) = true).
Proof.
  intros (w1 & rd & Hdir & Hstep)%copy_file_step dd. fold dd in Hdir, Hstep.
  pose proof (ensure_dir_files _ _ _ _ Hdir) as Hgrow1.
  pose proof (ensure_dir_calls _ _ _ _ Hdir) as (evs1 & Hc1 & Hs1 & Hevs1).
  assert (files w ⊆ files w1 ∧
          ∃ evs, calls w1 = calls w ++ evs ∧
            size (files w1) = size (files w) + length evs ∧
            (∀ c, c ∈ evs →
               c = Mkdir dd ∨
               ∃ w1 file_name,
                 choose_file_name d destination keep dt root file n w1
                   = (w1, Ok file_name) ∧
                 c = Copy2 (Py.join root file) (Py.join dd file_name)))
    as Hfirst.
  { split; [done|]. exists evs1. repeat split; [done..|]. intros c Hc.
    left. by apply Hevs1. }
  destruct rd as [[]|e]; cycle 1.
  { destruct Hstep as [-> ->]. destruct Hfirst as (? & evs & ? & ? & ?).
    split; [done|]. exists evs. repeat split; done. }
  destruct Hstep as (rn & Hname & Hstep). destruct rn as [name|e]; cycle 1.
  { destruct Hstep as [-> ->]. destruct Hfirst as (? & evs & ? & ? & ?).
    split; [done|]. exists evs. repeat split; done. }
  destruct Hstep as (ru & Hcopy & ->).
  pose proof (copy_unless_exists_files _ _ _ _ _ Hcopy) as Hgrow2.
  pose proof (copy_unless_exists_calls _ _ _ _ _ Hcopy)
    as (evs2 & Hc2 & Hs2 & Hevs2).
  split; [by etrans|]. exists (evs1 ++ evs2).
  rewrite Hc2, Hc1, Hs2, Hs1, length_app, <-app_assoc.
  split; [done|]. split; [lia|]. split.
  - intros c [Hc|Hc]%elem_of_app; [left; by apply Hevs1|].
    right. exists w1, name. split; [done | by apply Hevs2].
  - intros m Hm. destruct ru as [[]|e]; [|done]. injection Hm as <-.
    split; [done|]. split.
    + eapply exists_in_mono; [done|]. by eapply ensure_dir_exists.
    + exists w1, name. split; [done|]. by eapply copy_unless_exists_ok.
Qed.

Lemma copy_file_files root file n w w' r :
  copy_file d destination keep dt root file n w = (w', r) →
  files w ⊆ files w'.
Proof. by intros [Hgrow _]%copy_file_calls. Qed.

End Steps.

(** * The whole walk *)

Section Walk.
Context `{External}.
Variable d : driver.
Variable destination : string.
Variables keep dt : bool.
Variable log_frequency_file_count : nat.

Abbreviation for_flat :=
  (for_flat d destination keep dt log_frequency_file_count).

Lemma for_flat_app l1 l2 n w :
  for_flat (l1 ++ l2) n w = (for_flat l1 n ≫= for_flat l2) w.
Proof.
  revert n w. induction l1 as [|[root file] l1 IH]; intros n w; [done|].
  simpl. unfold mbind, io_bind in *.
  destruct (copy_file _ _ _ _ _ _ _ _) as [w1 [n1|e]]; [|done].
  destruct (report_progress _ _ _) as [w2 [[]|e]]; [|done].
  apply IH.
Qed.

Lemma for_files_flat root filenames n w :
  for_files d destination keep dt log_frequency_file_count root filenames n w
  = for_flat (map (pair root) filenames) n w.
Proof.
  revert n w. induction filenames as [|file rest IH]; intros n w; [done|].
  simpl. unfold mbind, io_bind in *.
  destruct (copy_file _ _ _ _ _ _ _ _) as [w1 [n1|e]]; [|done].
  destruct (report_progress _ _ _) as [w2 [[]|e]]; [|done].
  apply IH.
Qed.

Lemma for_walk_flat walk n w :
  for_walk d destination keep dt log_frequency_file_count walk n w
  = for_flat (walk_files walk) n w.
Proof.
  revert n w. induction walk as [|[root filenames] rest IH]; intros n w; [done|].
  simpl. rewrite for_flat_app. unfold mbind, io_bind.
  rewrite for_files_flat.
  destruct (for_flat _ _ _) as [w1 [n1|e]]; [|done]. apply IH.
Qed.

Lemma report_progress_inv n w w' r :
  report_progress log_frequency_file_count n w = (w', r) →
  w' = w ∧ (r = Ok tt ∨ (r = Raise ZeroDivisionError ∧ log_frequency_file_count = 0)).
Proof.
  unfold report_progress. destruct (_ =? 0) eqn:E.
  - apply Nat.eqb_eq in E. intros [= <- <-]. auto.
  - intros [= <- <-]. auto.
Qed.

Lemma for_flat_cons root file rest n w :
  for_flat ((root, file) :: rest) n w
  = match copy_file d destination keep dt root file n w with
    | (w1, Ok n1) =>
        if log_frequency_file_count =? 0 then (w1, Raise ZeroDivisionError)
        else for_flat rest n1 w1
    | (w1, Raise e) => (w1, Raise e)
    end.
Proof.
  simpl. unfold mbind, io_bind, report_progress.
  destruct (copy_file _ _ _ _ _ _ _ _) as [w1 [n1|e]]; [|done].
  by destruct (_ =? 0).
Qed.

(** What the walk does to the world: it only adds, every call it makes is
    the [mkdir] or the [copy2] of one of its files, under the name chosen
    for the file when its number came up; and when it ends, every file
    has been counted and its chosen path exists. *)
Lemma for_flat_spec l n w w' r :
  for_flat l n w = (w', r) →
  files w ⊆ files w' ∧
  (∃ evs, calls w' = calls w ++ evs ∧
     ∀ c, c ∈ evs → ∃ k root file, l !! k = Some (root, file) ∧
       (c = Mkdir (dest_directory_of d destination file) ∨
        ∃ wk file_name,
          choose_file_name d destination keep dt root file (n + k) wk
            = (wk, Ok file_name) ∧
          c = Copy2 (Py.join root file)
                (Py.join (dest_directory_of d destination file) file_name))) ∧
  (∀ m, r = Ok m → m = n + length l ∧
     ∀ k root file, l !! k = Some (root, file) →
       ∃ wk file_name,
         choose_file_name d destination keep dt root file (n + k) wk
           = (wk, Ok file_name) ∧
         exists_in (files w')
           (Py.join (dest_directory_of d destination file) file_name) = true).
Proof.
  revert n w. induction l as [|[root file] rest IH]; intros n w Hrun.
  { injection Hrun as <- <-. split; [done|]. split.
    - exists []. split; [by rewrite app_nil_r|]. intros c Hc. by inversion Hc.
    - intros m [= <-]. split; [simpl; lia|]. intros k ?? Hk. by destruct k. }
  simpl in Hrun. unfold mbind, io_bind in Hrun.
  destruct (copy_file _ _ _ _ _ _ _ _) as [w1 r1] eqn:Estep.
  apply copy_file_calls in Estep as (Hgrow1 & evs1 & Hcalls1 & _ & Hevs1 & Hok1).
  cbv zeta in *.
  set (dd := dest_directory_of d destination file) in *.
  assert (∀ c, c ∈ evs1 → ∃ k root0 file0,
            ((root, file) :: rest) !! k = Some (root0, file0) ∧
            (c = Mkdir (dest_directory_of d destination file0) ∨
             ∃ wk file_name,
               choose_file_name d destination keep dt root0 file0 (n + k) wk
                 = (wk, Ok file_name) ∧
               c = Copy2 (Py.join root0 file0)
                     (Py.join (dest_directory_of d destination file0) file_name)))
    as Hhead.
  { intros c Hc. exists 0, root, file. split; [done|].
    destruct (Hevs1 c Hc) as [-> | (wk & name & Hname & ->)]; [auto|].
    right. exists wk, name. by rewrite Nat.add_0_r. }
  destruct r1 as [n1|e]; cycle 1.
  { injection Hrun as <- <-. split; [done|]. split; [eauto|]. by intros m. }
  destruct (Hok1 _ eq_refl) as (-> & _ & wk0 & name & Hname & Hexists).
  destruct (report_progress _ _ _) as [w2 r2] eqn:Erep.
  apply report_progress_inv in Erep as [-> Hr2].
  destruct r2 as [[]|e]; cycle 1.
  { injection Hrun as <- <-. split; [done|]. split; [eauto|]. by intros m. }
  apply IH in Hrun as (Hgrow & (evs & Hcalls & Hevs) & Hok).
  split; [by etrans|]. split.
  - exists (evs1 ++ evs). split; [by rewrite Hcalls, Hcalls1, <-app_assoc|].
    intros c [Hc|Hc]%elem_of_app; [by apply Hhead|].
    destruct (Hevs c Hc) as (k & root0 & file0 & Hk & Hc').
    exists (S k), root0, file0. split; [done|].
    by replace (n + S k) with (n + 1 + k) by lia.
  - intros m Hm. destruct (Hok m Hm) as [-> Hall]. split; [simpl; lia|].
    intros [|k] root0 file0 Hk.
    + injection Hk as <- <-. exists wk0, name.
      rewrite Nat.add_0_r. split; [done|]. by eapply exists_in_mono.
    + replace (n + S k) with (n + 1 + k) by lia. by apply Hall.
Qed.

End Walk.

(** X2: the copy walk only adds to the file system: what exists stays as it
    is, and every call it makes is an [os.mkdir] or a [shutil.copy2]. *)
Theorem copy_walk_only_adds `{External} (d : driver) (destination : string)
    (keep dt : bool) (log_frequency_file_count : nat)
    (walk : list (string * list string)) (n : nat) (w w' : world)
    (r : outcome nat) :
  for_walk d destination keep dt log_frequency_file_count walk n w = (w', r) →
  files w ⊆ files w' ∧
  ∃ evs, calls w' = calls w ++ evs ∧
    ∀ c, c ∈ evs → (∃ p, c = Mkdir p) ∨ (∃ src dst, c = Copy2 src dst).
Proof.
  rewrite for_walk_flat. intros (Hgrow & (evs & Hcalls & Hevs) & _)%for_flat_spec.
  split; [done|]. exists evs. split; [done|]. intros c Hc.
  destruct (Hevs c Hc) as (k & root & file & _ & [-> | (wk & name & _ & ->)]);
    eauto.
Qed.

(** ** The count of the files *)

Section Count.
Variable fs : gmap string entry.

Let count_in (dirpath : string) (numberOfFiles : nat) (f : string) : nat :=
  let fp := Py.join dirpath f in
  if isfile_in fs fp then numberOfFiles + 1 else numberOfFiles.

Lemma count_in_mono dirpath filenames acc :
  acc ≤ foldl (count_in dirpath) acc filenames.
Proof.
  revert acc. induction filenames as [|f rest IH]; intros acc; [done|].
  simpl. etrans; [|apply IH]. unfold count_in. cbv zeta.
  destruct (isfile_in _ _); lia.
Qed.

Lemma count_in_regular dirpath filenames acc file :
  file ∈ filenames → isfile_in fs (Py.join dirpath file) = true →
  acc < foldl (count_in dirpath) acc filenames.
Proof.
  intros Hin Hreg. revert acc.
  induction Hin as [file rest | file f rest _ IH]; intros acc; simpl.
  - eapply Nat.lt_le_trans; [|apply count_in_mono].
    unfold count_in. cbv zeta. rewrite Hreg. lia.
  - eapply Nat.le_lt_trans; [|by apply IH]. unfold count_in. cbv zeta.
    destruct (isfile_in fs (Py.join dirpath f)); lia.
Qed.

Let count_walk (numberOfFiles : nat) (entry : string * list string) : nat :=
  let '(dirpath, filenames) := entry in
  foldl (count_in dirpath) numberOfFiles filenames.

Lemma count_walk_mono walk acc : acc ≤ foldl count_walk acc walk.
Proof.
  revert acc. induction walk as [|[dirpath filenames] rest IH]; intros acc;
    [done|].
  simpl. etrans; [apply count_in_mono | apply IH].
Qed.

Lemma count_walk_regular walk acc root file :
  (root, file) ∈ walk_files walk → isfile_in fs (Py.join root file) = true →
  acc < foldl count_walk acc walk.
Proof.
  intros Hin Hreg. revert acc.
  induction walk as [|[dirpath filenames] rest IH]; intros acc.
  { by apply not_elem_of_nil in Hin. }
  simpl in Hin. apply elem_of_app in Hin as [Hin | Hin]; simpl.
  - apply list_elem_of_fmap in Hin as (f & [= -> ->] & Hf).
    eapply Nat.lt_le_trans; [by eapply count_in_regular | apply count_walk_mono].
  - eapply Nat.le_lt_trans; [apply count_in_mono | by apply IH].
Qed.

End Count.

Lemma log_frequency_positive (total_file_count : nat) :
  0 < total_file_count → 0 < log_frequency total_file_count.
Proof.
  intros Hpos. unfold log_frequency. destruct (100 <? _) eqn:E; [|done].
  apply Nat.ltb_lt in E. apply Nat.div_str_pos. lia.
Qed.

(** X3: when one of the names of the walk is a regular file, the count of the
    files and the divisor of the progress report are positive. *)
Theorem regular_file_gives_positive_frequency
    (walk : list (string * list string)) (w : world) (root file : string) :
  (root, file) ∈ walk_files walk →
  isfile_in (files w) (Py.join root file) = true →
  ∃ total_file_count,
    getNumberOfFilesInFolderRecursively walk w = (w, Ok total_file_count) ∧
    0 < total_file_count ∧ 0 < log_frequency total_file_count.
Proof.
  intros Hin Hreg. eexists. split; [reflexivity|].
  assert (0 < foldl (λ numberOfFiles '(dirpath, filenames),
                       foldl (λ numberOfFiles f,
                                let fp := Py.join dirpath f in
                                if isfile_in (files w) fp then numberOfFiles + 1
                                else numberOfFiles)
                             numberOfFiles filenames)
                    0 walk) as Hpos
    by exact (count_walk_regular (files w) walk 0 root file Hin Hreg).
  split; [exact Hpos | by apply log_frequency_positive].
Qed.

Lemma choose_sequential `{External} d destination root file n w :
  choose_file_name d destination false false root file n w
  = (w, Ok (sequential_name d n file)).
Proof.
  unfold choose_file_name, sequential_name. cbv zeta.
  by destruct (Py.truthy _).
Qed.

Lemma choose_keep `{External} d destination dt root file n w :
  choose_file_name d destination true dt root file n w = (w, Ok file).
Proof. reflexivity. Qed.

Lemma join_name_ne (a f : string) :
  f ≠ EmptyString → Py.startswith "/" f = false → Py.join a f ≠ a.
Proof.
  intros Hne Hrel Heq. rewrite join_relative_prefix in Heq by done.
  apply (f_equal String.length) in Heq. rewrite append_length in Heq.
  assert (String.length a ≤ String.length (join_prefix a)) as Hle.
  { unfold join_prefix. destruct (_ || _); [done|]. rewrite append_length. lia. }
  destruct f; [done|]. simpl in Heq. lia.
Qed.


(** * When a step goes through *)

Lemma candidate_name_no_sep (creationTime extension : string) (k : nat) :
  no_char "/" creationTime = true → no_char "/" extension = true →
  no_char "/" (candidate_name creationTime extension k) = true.
Proof.
  intros Hct Hext. pose proof (str_no_char "/" k digit_not_sep) as Hk.
  unfold candidate_name.
  destruct k; rewrite !no_char_append, Hct, ?Hk, (proj1 (no_sep_case _)), Hext;
    done.
Qed.

Section Ready.
Context `{External}.
Variable d : driver.
Variable destination : string.

(** With its source in place, the choice of a name does not raise. *)
Lemma choose_file_name_ok keep dt root file n w image :
  files w !! Py.join root file = Some (File image) →
  ∃ file_name,
    choose_file_name d destination keep dt root file n w = (w, Ok file_name).
Proof.
  intros Hsrc. unfold choose_file_name. destruct keep; [by eexists|].
  destruct dt; cycle 1.
  { destruct (Py.truthy _); by eexists. }
  unfold mbind, io_bind, open_rb, gets. rewrite Hsrc.
  destruct (strptime _ _) as [t|]; [|by eexists].
  set (ct := strftime _ t).
  change (ct +:+ "." +:+ Py.lower (extension_of d file))
    with (candidate_name ct (extension_of d file) 0).
  destruct (probe _ _ _ _ _ _ _) as [w' r] eqn:Hrun.
  pose proof (probe_fuel_enough _ _ _ _ _ _ Hrun) as Hfuel.
  apply probe_spec in Hrun as [-> [(k & _ & -> & _) | [-> _]]]; [|done].
  by eexists.
Qed.

(** The name chosen for a file with no separator in its name holds none,
    when the printed time holds none. *)
Lemma choose_file_name_plain keep dt root file n w w' file_name :
  no_char "/" file = true →
  (∀ image t,
     files w !! Py.join root file = Some (File image) →
     strptime (str_creationTime (getMinimumCreationTime (process_file image)))
              "%Y:%m:%d %H:%M:%S" = Some t →
     no_char "/" (strftime "%Y%m%d_%H%M%S" t) = true) →
  choose_file_name d destination keep dt root file n w = (w', Ok file_name) →
  no_char "/" file_name = true.
Proof.
  intros Hfile Hct. unfold choose_file_name. destruct keep; [by intros [= _ <-]|].
  destruct dt; cycle 1.
  { pose proof (sequential_name_no_sep d n file) as Hseq.
    unfold sequential_name in Hseq. cbv zeta in Hseq.
    destruct (Py.truthy _); by intros [= _ <-]. }
  unfold mbind, io_bind, open_rb, gets.
  destruct (files w !! Py.join root file) as [[|image]|] eqn:Hsrc; [done| |done].
  destruct (strptime _ _) as [t|] eqn:Hparse; [|by intros [= _ <-]].
  specialize (Hct image t eq_refl Hparse).
  set (ct := strftime _ t) in *.
  change (ct +:+ "." +:+ Py.lower (extension_of d file))
    with (candidate_name ct (extension_of d file) 0).
  intros Hrun.
  apply probe_spec in Hrun as [_ [(k & _ & [= ->] & _) | [[=] _]]].
  apply candidate_name_no_sep; [done | apply extension_no_sep].
Qed.

(** The directory of a file can be made in a destination that is a
    directory, unless a regular file has its name. *)
Lemma ensure_dir_ready file w :
  Py.endswith "/" destination = false →
  isdir_in (files w) destination = true →
  isfile_in (files w) (dest_directory_of d destination file) = false →
  ∃ w1, ensure_dir (dest_directory_of d destination file) w = (w1, Ok tt) ∧
    isdir_in (files w1) (dest_directory_of d destination file) = true ∧
    ∀ q, q ≠ dest_directory_of d destination file →
      files w1 !! q = files w !! q.
Proof.
  intros Hspell Hdst Hfile. set (dd := dest_directory_of d destination file) in *.
  rewrite ensure_dir_run. destruct (exists_in (files w) dd) eqn:E.
  - exists w. split; [done|]. split; [|done].
    unfold exists_in, isfile_in, isdir_in in *.
    by destruct (files w !! dd) as [[|c]|].
  - rewrite parent_error_isdir
      by (unfold dd; by rewrite dirname_dest_directory).
    eexists. split; [done|]. split.
    + unfold isdir_in. simpl. by rewrite lookup_insert_eq.
    + intros q Hq. simpl. by rewrite lookup_insert_ne.
Qed.

(** A regular file is copied under a name with no separator into the
    directory of a file, once the directory is there. *)
Lemma copy_ready file src file_name c w :
  files w !! src = Some (File c) →
  isdir_in (files w) (dest_directory_of d destination file) = true →
  no_char "/" file_name = true →
  let dest_file_path :=
    Py.join (dest_directory_of d destination file) file_name in
  ∃ w2, copy_unless_exists src dest_file_path w = (w2, Ok tt) ∧
    (files w !! dest_file_path = None →
       files w2 = <[dest_file_path := File c]> (files w) ∧
       calls w2 = calls w ++ [Copy2 src dest_file_path]) ∧
    (files w !! dest_file_path ≠ None → w2 = w).
Proof.
  intros Hsrc Hdir Hname p. rewrite copy_unless_exists_run.
  destruct (exists_in (files w) p) eqn:E.
  - exists w. split; [done|]. split; [|done].
    apply exists_in_true in E as [e He]. congruence.
  - apply exists_in_false in E. rewrite Hsrc.
    rewrite parent_error_isdir by (unfold p; by rewrite dirname_target).
    eexists. split; [done|]. split; [done|]. congruence.
Qed.

(** A step goes through for a regular file whose directory can be made
    and whose chosen name holds no separator: the world changes at the
    directory and at the chosen path at most. *)
Lemma copy_file_ready keep dt root file n w c :
  Py.endswith "/" destination = false →
  isdir_in (files w) destination = true →
  files w !! Py.join root file = Some (File c) →
  isfile_in (files w) (dest_directory_of d destination file) = false →
  (∀ w1 file_name,
     files w1 !! Py.join root file = Some (File c) →
     choose_file_name d destination keep dt root file n w1 = (w1, Ok file_name) →
     no_char "/" file_name = true) →
  let dest_directory := dest_directory_of d destination file in
  ∃ w1 file_name w',
    ensure_dir dest_directory w = (w1, Ok tt) ∧
    (∀ q, q ≠ dest_directory → files w1 !! q = files w !! q) ∧
    choose_file_name d destination keep dt root file n w1 = (w1, Ok file_name) ∧
    no_char "/" file_name = true ∧
    copy_unless_exists (Py.join root file) (Py.join dest_directory file_name) w1
      = (w', Ok tt) ∧
    copy_file d destination keep dt root file n w = (w', Ok (n + 1)) ∧
    isdir_in (files w') dest_directory = true ∧
    (∀ q, q ≠ dest_directory → q ≠ Py.join dest_directory file_name →
       files w' !! q = files w !! q) ∧
    (files w1 !! Py.join dest_directory file_name = None →
       files w' = <[Py.join dest_directory file_name := File c]> (files w1) ∧
       calls w' = calls w1
                  ++ [Copy2 (Py.join root file) (Py.join dest_directory file_name)]) ∧
    (files w1 !! Py.join dest_directory file_name ≠ None → w' = w1).
Proof.
  intros Hspell Hdst Hsrc Hfile Hplain dd.
  destruct (ensure_dir_ready file w Hspell Hdst Hfile)
    as (w1 & Hdir & Hisdir & Hsame1). fold dd in Hdir, Hisdir, Hsame1.
  pose proof (ensure_dir_lookup _ _ _ _ _ _ Hdir Hsrc) as Hsrc1.
  destruct (choose_file_name_ok keep dt root file n w1 c Hsrc1) as [name Hname].
  pose proof (Hplain w1 name Hsrc1 Hname) as Hsep.
  destruct (copy_ready file (Py.join root file) name c w1 Hsrc1 Hisdir Hsep)
    as (w' & Hcopy & Hnew & Hold). fold dd in Hcopy, Hnew, Hold.
  exists w1, name, w'. do 5 (split; [done|]). split.
  { rewrite copy_file_unfold. cbv zeta. fold dd. by rewrite Hdir, Hname, Hcopy. }
  split.
  { eapply isdir_in_mono; [by eapply copy_unless_exists_files | done]. }
  split; [|done].
  intros q Hq1 Hq2. rewrite <-(Hsame1 q Hq1).
  destruct (files w1 !! Py.join dd name) eqn:E.
  - by rewrite Hold.
  - destruct (Hnew eq_refl) as [-> _]. by rewrite lookup_insert_ne.
Qed.

(** Such a step leaves no regular file in the place of a directory of the
    walk. *)
Lemma copy_file_ready_keeps keep dt root file n w c file' :
  Py.endswith "/" destination = false →
  isdir_in (files w) destination = true →
  files w !! Py.join root file = Some (File c) →
  isfile_in (files w) (dest_directory_of d destination file) = false →
  (∀ w1 file_name,
     files w1 !! Py.join root file = Some (File c) →
     choose_file_name d destination keep dt root file n w1 = (w1, Ok file_name) →
     no_char "/" file_name = true) →
  isfile_in (files w) (dest_directory_of d destination file') = false →
  ∀ w' r, copy_file d destination keep dt root file n w = (w', r) →
    isfile_in (files w') (dest_directory_of d destination file') = false.
Proof.
  intros Hspell Hdst Hsrc Hfile Hplain Hfile' w' r Hrun.
  destruct (copy_file_ready keep dt root file n w c Hspell Hdst Hsrc Hfile Hplain)
    as (w1 & name & w2 & _ & _ & _ & Hsep & _ & Hstep & Hisdir & Hsame & _).
  rewrite Hstep in Hrun. injection Hrun as <- _.
  set (dd := dest_directory_of d destination file) in *.
  set (dd' := dest_directory_of d destination file') in *.
  destruct (decide (dd' = dd)) as [->|Hne].
  { unfold isdir_in, isfile_in in *. by destruct (files w2 !! dd) as [[|c']|]. }
  unfold isfile_in in *. rewrite Hsame; [done..|].
  intros Heq. symmetry in Heq. by apply target_ne_directory in Heq.
Qed.

End Ready.

(** * The claims about the copy walk *)

(** C3, as amended: under the sequential policy the number in a file's name
    is the file's position in the whole walk, counted from 0 across all the
    directories; every copy of the walk goes to [<position>.<ext>] (the
    extension lower-cased, no dot when there is none), and when the walk
    ends that path exists for every file. *)
Theorem sequential_names_follow_the_walk `{External} (d : driver)
    (destination : string) (log_frequency_file_count : nat)
    (walk : list (string * list string)) (w w' : world) (r : outcome nat) :
  for_walk d destination false false log_frequency_file_count walk 0 w = (w', r) →
  (∃ evs, calls w' = calls w ++ evs ∧
     ∀ src dst, Copy2 src dst ∈ evs →
       ∃ k root file, walk_files walk !! k = Some (root, file) ∧
         src = Py.join root file ∧
         dst = Py.join (dest_directory_of d destination file)
                       (sequential_name d k file)) ∧
  (∀ m, r = Ok m →
     m = length (walk_files walk) ∧
     ∀ k root file, walk_files walk !! k = Some (root, file) →
       exists_in (files w')
         (Py.join (dest_directory_of d destination file)
                  (sequential_name d k file)) = true).
Proof.
  rewrite for_walk_flat. intros (_ & (evs & Hcalls & Hevs) & Hok)%for_flat_spec.
  split.
  - exists evs. split; [done|]. intros src dst Hc.
    destruct (Hevs _ Hc) as (k & root & file & Hk & [? | (wk & name & Hname & Heq)]);
      [done|].
    rewrite choose_sequential in Hname. injection Hname as <-.
    injection Heq as -> ->. by exists k, root, file.
  - intros m Hm. destruct (Hok m Hm) as [-> Hall]. split; [done|].
    intros k root file Hk.
    destruct (Hall k root file Hk) as (wk & name & Hname & Hex).
    rewrite choose_sequential in Hname. by injection Hname as <-.
Qed.

(** C4: under the date-time policy a file whose timestamp does not parse
    keeps its original name, and its step is the step of the keep-original
    policy, whatever it does.  The step ends without an exception when the
    file has a plain name and the destination is a directory in which no
    regular file has the name of the directory of the file. *)
Theorem unparsable_timestamp_keeps_the_name `{External} (d : driver)
    (destination root file : string) (n : nat) (w : world) (image : string) :
  files w !! Py.join root file = Some (File image) →
  strptime (str_creationTime (getMinimumCreationTime (process_file image)))
           "%Y:%m:%d %H:%M:%S" = None →
  choose_file_name d destination false true root file n w = (w, Ok file) ∧
  copy_file d destination false true root file n w
    = copy_file d destination true true root file n w ∧
  (Py.endswith "/" destination = false →
   isdir_in (files w) destination = true →
   isfile_in (files w) (dest_directory_of d destination file) = false →
   no_char "/" file = true →
   ∃ w', copy_file d destination false true root file n w = (w', Ok (n + 1))).
Proof.
  intros Hsrc Hparse.
  assert (∀ w0, files w0 !! Py.join root file = Some (File image) →
            choose_file_name d destination false true root file n w0
            = (w0, Ok file)) as Hname.
  { intros w0 Hw0. unfold choose_file_name, mbind, io_bind, open_rb.
    by rewrite Hw0, Hparse. }
  split; [by apply Hname|].
  assert (copy_file d destination false true root file n w
          = copy_file d destination true true root file n w) as Heq.
  { rewrite !copy_file_unfold. cbv zeta.
    destruct (ensure_dir _ w) as [w1 [[]|e]] eqn:Edir; [|done].
    rewrite Hname by (by eapply ensure_dir_lookup). by rewrite choose_keep. }
  split; [done|]. intros Hspell Hdst Hfile Hplain. rewrite Heq.
  destruct (copy_file_ready d destination true true root file n w image
              Hspell Hdst Hsrc Hfile)
    as (w1 & name & w' & _ & _ & _ & _ & _ & Hstep & _); [|by exists w'].
  intros w0 name _. rewrite choose_keep. by intros [= <-].
Qed.



(** C8: whatever the policy, a file whose chosen destination path exists
    is not copied: once its directory is there, the step ends in that
    world with no exception and the counter advanced, so that what existed
    is unchanged and no [copy2] was made.  In particular, under the
    keep-original policy the first file met under a name is the one found
    in the destination after the walk, however the walk goes on, when the
    file has a plain name and the destination is a directory in which no
    regular file has the name of the directory of the file. *)
Theorem existing_destination_is_not_overwritten `{External} (d : driver)
    (destination : string) :
  (∀ (keep dt : bool) (root file : string) (n : nat) (w w1 : world)
     (file_name : string),
     let dest_directory := dest_directory_of d destination file in
     ensure_dir dest_directory w = (w1, Ok tt) →
     choose_file_name d destination keep dt root file n w1 = (w1, Ok file_name) →
     exists_in (files w1) (Py.join dest_directory file_name) = true →
     copy_file d destination keep dt root file n w = (w1, Ok (n + 1)) ∧
     files w ⊆ files w1 ∧
     ∀ src dst, Copy2 src dst ∈ calls w1 → Copy2 src dst ∈ calls w) ∧
  (∀ (dt : bool) (log_frequency_file_count : nat) (root file : string)
     (filenames : list string) (walk : list (string * list string))
     (n : nat) (w w' : world) (r : outcome nat) (image : string),
     let dest_file_path :=
       Py.join (dest_directory_of d destination file) file in
     Py.endswith "/" destination = false →
     isdir_in (files w) destination = true →
     isfile_in (files w) (dest_directory_of d destination file) = false →
     file ≠ EmptyString → no_char "/" file = true →
     files w !! Py.join root file = Some (File image) →
     files w !! dest_file_path = None →
     for_walk d destination true dt log_frequency_file_count
              ((root, file :: filenames) :: walk) n w = (w', r) →
     files w' !! dest_file_path = Some (File image)).
Proof.
  split.
  - intros keep dt root file n w w1 name dd Hdir Hname Hex.
    split; [|split].
    + rewrite copy_file_unfold. cbv zeta. fold dd. rewrite Hdir, Hname.
      by rewrite copy_unless_exists_run, Hex.
    + by eapply ensure_dir_files.
    + intros src dst Hc.
      apply ensure_dir_calls in Hdir as (evs & Heq & _ & Hevs).
      rewrite Heq in Hc. apply elem_of_app in Hc as [Hc | Hc]; [done|].
      by apply Hevs in Hc.
  - intros dt freq root file filenames walk n w w' r image dst
      Hspell Hdst Hfile Hne Hsep Hsrc Hfree Hrun.
    rewrite for_walk_flat in Hrun.
    change (walk_files ((root, file :: filenames) :: walk))
      with ((root, file) :: (map (pair root) filenames ++ walk_files walk))
      in Hrun.
    rewrite for_flat_cons in Hrun.
    destruct (copy_file_ready d destination true dt root file n w image
                Hspell Hdst Hsrc Hfile)
      as (w1 & name & w2 & _ & Hsame1 & Hname & _ & _ & Hstep & _ & _ & Hnew & _).
    { intros w0 name _. rewrite choose_keep. by intros [= <-]. }
    rewrite choose_keep in Hname. injection Hname as <-.
    rewrite Hstep in Hrun. fold dst in Hnew.
    assert (files w1 !! dst = None) as Hfree1.
    { rewrite Hsame1; [done|]. apply join_name_ne; [done|].
      by apply no_char_startswith. }
    destruct (Hnew Hfree1) as [Hfiles2 _].
    assert (files w2 !! dst = Some (File image)) as Hdst2
      by (rewrite Hfiles2; apply lookup_insert_eq).
    destruct (freq =? 0); [by injection Hrun as <- _|].
    apply for_flat_spec in Hrun as [Hgrow _]. by eapply lookup_weaken.
Qed.

(** * The entry points *)

Lemma do_organization_checks `{External} walk source destination cap split
    keep dt delta w :
  directories_exist source destination w = false →
  ∃ msg, Package.do_organization walk source destination cap split keep dt
           delta w = (w, Raise (ValueError msg)).
Proof.
  unfold directories_exist, Package.do_organization.
  unfold mbind, io_bind, os_path_isdir, gets, raise, mret, io_ret.
  destruct (isdir_in (files w) source); simpl; [|eauto].
  destruct (isdir_in (files w) destination); simpl; [done|eauto].
Qed.

Lemma do_organization_runs `{External} walk source destination cap split
    keep dt delta w :
  directories_exist source destination w = true →
  Package.do_organization walk source destination cap split keep dt delta w
  = (copy_phase walk destination keep dt;;
     jpgSorter_postprocessImages (Py.join destination "JPG") delta split;;
     limiter_limitFilesPerFolder destination cap) w.
Proof.
  unfold directories_exist, Package.do_organization, copy_phase.
  unfold mbind, io_bind, os_path_isdir, gets, raise, mret, io_ret.
  intros [H1 H2]%andb_true_iff. rewrite H1. simpl. by rewrite H2.
Qed.

Lemma collaborators_keep_calls `{External} dir1 dir2 delta split cap w w' r :
  (jpgSorter_postprocessImages dir1 delta split;;
   limiter_limitFilesPerFolder dir2 cap) w = (w', r) →
  ∃ evs, calls w' = calls w ++ evs.
Proof.
  unfold mbind, io_bind, jpgSorter_postprocessImages, limiter_limitFilesPerFolder.
  destruct (postprocessImages _ _ _ _) as [fs1 [[]|e]]; cycle 1.
  { intros [= <- _]. eauto. }
  simpl. destruct (limitFilesPerFolder _ _ _) as [fs2 r2].
  intros [= <- _]. simpl. rewrite <-app_assoc. eauto.
Qed.

(** C2, as amended: the existence of the two directories is the only
    precondition that is checked: without it the driver raises
    [ValueError] in the world it found.  The cap and the gap are not
    checked: with both directories in place the copy walk runs for every
    value of the two, its calls come first in the log, an exception of the
    walk is the one of the run, and after a walk that ends the two numbers
    go as they are to [postprocessImages] and [limitFilesPerFolder]. *)
Theorem only_the_directories_are_checked `{External}
    (walk : list (string * list string)) (source destination : string)
    (max_files_per_folder : Z)
    (enable_split_months enable_keep_filename enable_datetime_filename : bool)
    (min_event_delta_days : Z) (w : world) :
  let run :=
    Package.do_organization walk source destination max_files_per_folder
      enable_split_months enable_keep_filename enable_datetime_filename
      min_event_delta_days w in
  let copied :=
    copy_phase walk destination enable_keep_filename enable_datetime_filename w in
  (directories_exist source destination w = false →
     ∃ msg, run = (w, Raise (ValueError msg))) ∧
  (directories_exist source destination w = true →
     (∃ evs, calls run.1 = calls copied.1 ++ evs) ∧
     (∀ e, copied.2 = Raise e → run = (copied.1, Raise e)) ∧
     (∀ n, copied.2 = Ok n →
        run = (jpgSorter_postprocessImages (Py.join destination "JPG")
                 min_event_delta_days enable_split_months;;
               limiter_limitFilesPerFolder destination max_files_per_folder)
                copied.1)).
Proof.
  intros run copied. split.
  - apply do_organization_checks.
  - intros Hdirs. subst run copied. rewrite do_organization_runs by done.
    rewrite bind_run. destruct (copy_phase _ _ _ _ w) as [w1 [n|e]]; simpl.
    + match goal with |- context [mbind ?f ?m w1] =>
        destruct (mbind f m w1) as [w2 r2] eqn:E end.
      apply collaborators_keep_calls in E. simpl. split; [done|].
      split; [by intros e|]. by intros m.
    + split; [exists []; by rewrite app_nil_r|].
      split; [by intros e' [= <-]|]. by intros m.
Qed.


(** * The two drivers side by side *)

Lemma extension_lower_agree (file : string) :
  Py.isascii file = true →
  Py.lower (extension_of Script file) = Py.lower (extension_of Package file).
Proof.
  intros Hfile%raw_extension_ascii. unfold extension_of. simpl.
  by rewrite lower_upper, lower_lower.
Qed.

Lemma extension_truthy_agree (file : string) :
  Py.truthy (extension_of Script file) = Py.truthy (extension_of Package file).
Proof. unfold extension_of. simpl. by rewrite truthy_upper, truthy_lower. Qed.

Lemma candidate_name_lower (ct e1 e2 : string) (k : nat) :
  Py.lower e1 = Py.lower e2 → candidate_name ct e1 k = candidate_name ct e2 k.
Proof. intros He. unfold candidate_name. by rewrite He. Qed.

(** The two drivers choose the same name for a file when they read the
    same content and meet the same names in its directory. *)
Lemma choose_file_name_agree `{External} destination keep dt root file n
    (w_s w_p : world) :
  Py.isascii file = true →
  files w_s !! Py.join root file = files w_p !! Py.join root file →
  (∀ name,
     exists_in (files w_s)
       (Py.join (dest_directory_of Script destination file) name)
     = exists_in (files w_p)
         (Py.join (dest_directory_of Package destination file) name)) →
  (choose_file_name Script destination keep dt root file n w_s).2
  = (choose_file_name Package destination keep dt root file n w_p).2.
Proof.
  intros Hascii Hsrc Hnames. destruct keep; [done|]. destruct dt; cycle 1.
  { rewrite !choose_sequential. simpl. unfold sequential_name. cbv zeta.
    by rewrite extension_truthy_agree, extension_lower_agree. }
  unfold choose_file_name, mbind, io_bind, open_rb, gets. rewrite <-Hsrc.
  destruct (files w_s !! Py.join root file) as [[|image]|]; [done| |done].
  destruct (strptime _ _) as [t|]; [|done].
  set (ct := strftime _ t).
  change (ct +:+ "." +:+ Py.lower (extension_of Script file))
    with (candidate_name ct (extension_of Script file) 0).
  change (ct +:+ "." +:+ Py.lower (extension_of Package file))
    with (candidate_name ct (extension_of Package file) 0).
  destruct (probe _ _ _ (extension_of Script file) _ _ _) as [ws rs] eqn:Es.
  destruct (probe _ _ _ (extension_of Package file) _ _ _) as [wp rp] eqn:Ep.
  pose proof (probe_fuel_enough _ _ _ _ _ _ Es) as Hfs.
  pose proof (probe_fuel_enough _ _ _ _ _ _ Ep) as Hfp.
  apply probe_spec in Es as [_ [(ks & _ & -> & Hs_free & Hs_below) | [-> _]]];
    [|done].
  apply probe_spec in Ep as [_ [(kp & _ & -> & Hp_free & Hp_below) | [-> _]]];
    [|done].
  cbn [snd]. f_equal.
  rewrite (candidate_name_lower ct _ _ ks (extension_lower_agree file Hascii)).
  assert (∀ j, exists_in (files w_s)
                 (Py.join (dest_directory_of Script destination file)
                    (candidate_name ct (extension_of Script file) j))
               = exists_in (files w_p)
                   (Py.join (dest_directory_of Package destination file)
                      (candidate_name ct (extension_of Package file) j)))
    as Hsame.
  { intros j. rewrite Hnames.
    by rewrite (candidate_name_lower ct _ _ j (extension_lower_agree file Hascii)). }
  destruct (Nat.lt_trichotomy ks kp) as [Hlt | [-> | Hgt]]; [|done|].
  - exfalso. apply Hs_free. rewrite Hsame. apply Hp_below. lia.
  - exfalso. apply Hp_free. rewrite <-Hsame. apply Hs_below. lia.
Qed.

(** The name of a directory of the walk is joined to the destination in
    one way. *)
Lemma join_bucket_inj (destination b1 b2 : string) :
  Py.truthy b1 = true → Py.truthy b2 = true →
  no_char "/" b1 = true → no_char "/" b2 = true →
  Py.join destination b1 = Py.join destination b2 → b1 = b2.
Proof.
  intros H1 H2 Hs1 Hs2 Heq.
  apply (join_common_inj destination EmptyString b1 b2);
    [by apply no_char_startswith..| by destruct b1 | by destruct b2 | done].
Qed.

(** C10, as amended: the copy loops of the two drivers give a file with
    an ASCII name the same name whenever they read the same content and
    meet the same names in its directory.  The directories are those of
    the same extension in upper case in the script and in lower case in
    the package, or [_NO_EXTENSION] and [no_extension]: they are the same
    path exactly for a file whose extension is not empty and has no
    letter in it. *)
Theorem drivers_agree_up_to_directory_names `{External}
    (destination : string) (keep dt : bool) (root file : string) (n : nat)
    (w_s w_p : world) :
  Py.isascii file = true →
  let extension := Py.drop 1 (Py.splitext file).2 in
  (dest_directory_of Script destination file
   = dest_directory_of Package destination file
   ↔ Py.truthy extension = true ∧ Py.upper extension = Py.lower extension) ∧
  (Py.truthy extension = true →
   bucket_of Package file = Py.lower (bucket_of Script file) ∧
   bucket_of Script file = Py.upper (bucket_of Package file)) ∧
  (Py.truthy extension = false →
   bucket_of Script file = "_NO_EXTENSION" ∧
   bucket_of Package file = "no_extension") ∧
  (files w_s !! Py.join root file = files w_p !! Py.join root file →
   (∀ name,
      exists_in (files w_s)
        (Py.join (dest_directory_of Script destination file) name)
      = exists_in (files w_p)
          (Py.join (dest_directory_of Package destination file) name)) →
   (choose_file_name Script destination keep dt root file n w_s).2
   = (choose_file_name Package destination keep dt root file n w_p).2).
Proof.
  intros Hascii extension.
  pose proof (raw_extension_ascii file Hascii) as Hext. fold extension in Hext.
  assert (bucket_of Script file
          = if Py.truthy extension then Py.upper extension else "_NO_EXTENSION")
    as Hs.
  { unfold bucket_of, extension_of, ext_case, no_extension_dir.
    fold extension. by rewrite truthy_upper. }
  assert (bucket_of Package file
          = if Py.truthy extension then Py.lower extension else "no_extension")
    as Hp.
  { unfold bucket_of, extension_of, ext_case, no_extension_dir.
    fold extension. by rewrite truthy_lower. }
  split; [|split; [|split]].
  - rewrite !dest_directory_join. split.
    + intros Heq. apply join_bucket_inj in Heq; [|apply bucket_plain..].
      rewrite Hs, Hp in Heq. by destruct (Py.truthy extension).
    + intros [Ht Heq]. by rewrite Hs, Hp, Ht, Heq.
  - intros Ht. rewrite Hs, Hp, Ht.
    by rewrite lower_upper, upper_of_lower.
  - intros Ht. by rewrite Hs, Hp, Ht.
  - by apply choose_file_name_agree.
Qed.

(** X1, the script: line 90 raises for every run that passed the two checks,
    so its copy loop is never entered. *)
Theorem script_main_raises `{External} (walk : list (string * list string))
    (args : Script.args) (w : world) :
  ∃ msg, Script.main walk args w = (w, Raise (ValueError msg)).
Proof.
  unfold Script.main. cbv zeta.
  unfold mbind, io_bind, os_path_isdir, gets, raise, mret, io_ret,
    getNumberOfFilesInFolderRecursively, Script.format_comma_str.
  destruct (isdir_in (files w) (Script.source args)); simpl; [|eauto].
  destruct (isdir_in (files w) (Script.destination args)); simpl; eauto.
Qed.

(** The directory of the photographs in the loop of the script is the one
    its [main] names to [postprocessImages]. *)
Lemma script_jpeg_directory (destination file : string) :
  extension_of Script file = "JPG" →
  dest_directory_of Script destination file = Py.join destination "JPG".
Proof. intros He. unfold dest_directory_of. by rewrite He. Qed.

(** In the package it is another one. *)
Lemma package_jpeg_directory (destination file : string) :
  Py.isascii file = true →
  extension_of Script file = "JPG" →
  dest_directory_of Package destination file = Py.join destination "jpg" ∧
  Py.join destination "jpg" ≠ Py.join destination "JPG".
Proof.
  intros Hascii He. split.
  - pose proof (extension_lower_agree file Hascii) as Hl. rewrite He in Hl.
    unfold dest_directory_of.
    assert (extension_of Package file = "jpg") as ->; [|done].
    unfold extension_of in *. simpl in *.
    by rewrite lower_lower in Hl by (by apply raw_extension_ascii).
  - intros Heq.
    by apply (join_common_inj destination EmptyString "jpg" "JPG") in Heq.
Qed.


Section Runs.
#[local] Existing Instance Sample.library.

(** C1 fails in the package: [do_organization] copies the photographs of
    the sample tree into [dst/jpg] and then names [dst/JPG], which does
    not exist, to [postprocessImages]. *)
Theorem package_clusters_another_directory :
  let run :=
    Package.do_organization Sample.walk "src" "dst" 500 false false false 4
      (World Sample.tree []) in
  run.2 = Ok tt ∧
  calls run.1 =
    [Mkdir "dst/jpg"; Copy2 "src/f1.JPG" "dst/jpg/0.jpg";
     Copy2 "src/f2.jpg" "dst/jpg/1.jpg";
     Mkdir "dst/txt"; Copy2 "src/notes.txt" "dst/txt/2.txt";
     Mkdir "dst/no_extension"; Copy2 "src/README" "dst/no_extension/3";
     PostprocessImages "dst/JPG" 4 false; LimitFilesPerFolder "dst" 500] ∧
  files run.1 !! "dst/JPG" = None.
Proof. vm_compute. done. Qed.

(** C2 fails as stated: with a cap of 0 and a gap of -3 the package makes
    its directories and copies the files; no exception is raised before
    them. *)
Lemma non_positive_cap_and_gap_are_copied_with :
  let run :=
    Package.do_organization Sample.walk "src" "dst" 0 false true false (-3)
      (World Sample.tree []) in
  directories_exist "src" "dst" (World Sample.tree []) = true ∧
  Copy2 "src/f1.JPG" "dst/jpg/f1.JPG" ∈ calls run.1 ∧
  files run.1 !! "dst/jpg/f1.JPG" = Some (File "2021:12:31 23:58:00") ∧
  ∀ msg, run.2 ≠ Raise (ValueError msg).
Proof.
  vm_compute. split; [done|]. split; [|done].
  apply list_elem_of_In. vm_compute. auto.
Qed.

(** C3 fails as stated: the only file copied into [dst/txt] is named
    [2.txt]; the numbers do not start again in each directory. *)
Lemma sequential_numbers_are_not_per_directory :
  let run :=
    for_walk Package "dst" false false 4 Sample.walk 0 (World Sample.tree []) in
  run.2 = Ok 4 ∧
  files run.1 !! "dst/txt/0.txt" = None ∧
  files run.1 !! "dst/txt/2.txt" = Some (File "") ∧
  calls run.1 =
    [Mkdir "dst/jpg"; Copy2 "src/f1.JPG" "dst/jpg/0.jpg";
     Copy2 "src/f2.jpg" "dst/jpg/1.jpg";
     Mkdir "dst/txt"; Copy2 "src/notes.txt" "dst/txt/2.txt";
     Mkdir "dst/no_extension"; Copy2 "src/README" "dst/no_extension/3"].
Proof. vm_compute. done. Qed.

(** C9 fails: the walk lists a dangling link, which the count of regular
    files leaves out; the file of its name is already in the destination,
    so nothing is copied and the step reaches the division by a
    frequency of 0. *)
Theorem dangling_link_divides_by_zero :
  getNumberOfFilesInFolderRecursively Sample.dangling_walk (World Sample.dangling_tree [])
  = (World Sample.dangling_tree [], Ok 0) ∧
  Package.do_organization Sample.dangling_walk "src" "dst" 500 false true false 4
    (World Sample.dangling_tree [])
  = (World Sample.dangling_tree [], Raise ZeroDivisionError).
Proof. split; reflexivity. Qed.

(** C10 fails as stated: on the sample tree the loop of the script fills
    [dst/JPG] and [dst/_NO_EXTENSION], the loop of the package [dst/jpg]
    and [dst/no_extension]. *)
Lemma drivers_name_directories_differently :
  let script :=
    for_walk Script "dst" true false 4 Sample.walk 0 (World Sample.tree []) in
  let package :=
    for_walk Package "dst" true false 4 Sample.walk 0 (World Sample.tree []) in
  files script.1 !! "dst/JPG/f1.JPG" = Some (File "2021:12:31 23:58:00") ∧
  files package.1 !! "dst/JPG/f1.JPG" = None ∧
  files package.1 !! "dst/jpg/f1.JPG" = Some (File "2021:12:31 23:58:00") ∧
  files script.1 !! "dst/_NO_EXTENSION/README" = Some (File "") ∧
  files package.1 !! "dst/_NO_EXTENSION/README" = None ∧
  files package.1 !! "dst/no_extension/README" = Some (File "").
Proof. vm_compute. done. Qed.

(** A regular file in the place of a directory of the walk stops the
    walk: [shutil.copy2] raises [NotADirectoryError] and nothing is
    written. *)
Example blocked_directory_stops_the_walk :
  for_walk Package "dst" false false 1 Sample.blocked_walk 0
    (World Sample.blocked_tree [])
  = (World Sample.blocked_tree [], Raise (NotADirectoryError "dst/txt/0.txt")).
Proof. reflexivity. Qed.

End Runs.

Section Witnesses.
#[local] Existing Instance Sample.library.

Lemma only_the_directories_are_checked_witness :
  directories_exist "src" "nowhere" (World Sample.tree []) = false ∧
  directories_exist "src" "dst" (World Sample.tree []) = true ∧
  (∃ msg, Package.do_organization Sample.walk "src" "nowhere" 0 false false
            false (-3) (World Sample.tree [])
          = (World Sample.tree [], Raise (ValueError msg))) ∧
  (∃ evs,
     calls (Package.do_organization Sample.walk "src" "dst" 0 false false
              false (-3) (World Sample.tree [])).1
     = calls (copy_phase Sample.walk "dst" false false (World Sample.tree [])).1
       ++ evs).
Proof.
  split; [vm_compute; reflexivity|]. split; [vm_compute; reflexivity|]. split.
  - apply (only_the_directories_are_checked Sample.walk "src" "nowhere" 0
             false false false (-3) (World Sample.tree [])).
    vm_compute; reflexivity.
  - apply (only_the_directories_are_checked Sample.walk "src" "dst" 0
             false false false (-3) (World Sample.tree [])).
    vm_compute; reflexivity.
Defined.

Lemma sequential_names_follow_the_walk_witness :
  let run :=
    for_walk Package "dst" false false 4 Sample.walk 0 (World Sample.tree []) in
  run = (run.1, run.2) ∧
  (∀ m, run.2 = Ok m →
     m = length (walk_files Sample.walk) ∧
     ∀ k root file, walk_files Sample.walk !! k = Some (root, file) →
       exists_in (files run.1)
         (Py.join (dest_directory_of Package "dst" file)
                  (sequential_name Package k file)) = true).
Proof.
  intros run. split; [apply surjective_pairing|].
  apply (sequential_names_follow_the_walk Package "dst" 4 Sample.walk
           (World Sample.tree []) run.1 run.2).
  apply surjective_pairing.
Defined.

Lemma unparsable_timestamp_keeps_the_name_witness :
  files (World Sample.tree []) !! Py.join "src" "notes.txt" = Some (File "") ∧
  strptime (str_creationTime (getMinimumCreationTime (process_file "")))
           "%Y:%m:%d %H:%M:%S" = None ∧
  choose_file_name Package "dst" false true "src" "notes.txt" 2
    (World Sample.tree [])
  = (World Sample.tree [], Ok "notes.txt") ∧
  ∃ w', copy_file Package "dst" false true "src" "notes.txt" 2
          (World Sample.tree [])
        = (w', Ok (2 + 1)).
Proof.
  split; [vm_compute; reflexivity|]. split; [vm_compute; reflexivity|].
  destruct (unparsable_timestamp_keeps_the_name Package "dst" "src" "notes.txt"
              2 (World Sample.tree []) "") as (Hname & _ & Hends);
    [vm_compute; reflexivity..|].
  split; [exact Hname|]. apply Hends; vm_compute; reflexivity.
Defined.


Lemma existing_destination_is_not_overwritten_witness :
  let w := World Sample.tree_taken [] in
  (copy_file Package "dst" true false "src" "20211231_235800.jpg" 0 w
   = (w, Ok 1)) ∧
  (∀ w' r,
     for_walk Package "dst" true false 2 Sample.twins_walk 0 (World Sample.twins_tree [])
     = (w', r) →
     files w' !! "dst/jpg/x.jpg" = Some (File "first")).
Proof.
  intros w. split.
  - apply (proj1 (existing_destination_is_not_overwritten Package "dst")
             true false "src" "20211231_235800.jpg" 0 w w "20211231_235800.jpg");
      vm_compute; reflexivity.
  - intros w' r.
    apply (proj2 (existing_destination_is_not_overwritten Package "dst")
             false 2 "src/a" "x.jpg" [] [("src/b", ["x.jpg"]); ("src", [])]
             0 (World Sample.twins_tree []) w' r "first"); try (vm_compute; reflexivity).
    discriminate.
Defined.

Lemma drivers_agree_up_to_directory_names_witness :
  let w := World {[ "src/f1.JPG" := File "2021:12:31 23:58:00" ]} [] in
  Py.isascii "f1.JPG" = true ∧ Py.isascii "img.001" = true ∧
  dest_directory_of Script "dst" "f1.JPG"
  ≠ dest_directory_of Package "dst" "f1.JPG" ∧
  dest_directory_of Script "dst" "img.001"
  = dest_directory_of Package "dst" "img.001" ∧
  bucket_of Package "f1.JPG" = Py.lower (bucket_of Script "f1.JPG") ∧
  (choose_file_name Script "dst" false true "src" "f1.JPG" 0 w).2
  = (choose_file_name Package "dst" false true "src" "f1.JPG" 0 w).2.
Proof.
  intros w.
  assert (Py.isascii "f1.JPG" = true) as Hjpg by (vm_compute; reflexivity).
  assert (Py.isascii "img.001" = true) as Himg by (vm_compute; reflexivity).
  split; [exact Hjpg|]. split; [exact Himg|].
  pose proof (drivers_agree_up_to_directory_names "dst" false true "src"
                "f1.JPG" 0 w w Hjpg) as (Hsame & Hcase & _ & Hnames).
  pose proof (drivers_agree_up_to_directory_names "dst" false true "src"
                "img.001" 0 w w Himg) as (Hsame' & _).
  split; [|split; [|split]].
  - intros [_ Heq]%Hsame. vm_compute in Heq. discriminate Heq.
  - apply Hsame'. vm_compute. split; reflexivity.
  - apply Hcase. vm_compute; reflexivity.
  - apply Hnames; [vm_compute; reflexivity|].
    intros name.
    change (dest_directory_of Script "dst" "f1.JPG") with "dst/JPG".
    change (dest_directory_of Package "dst" "f1.JPG") with "dst/jpg".
    assert (∀ dir, Py.startswith "s" dir = false → dir ≠ EmptyString →
              exists_in (files w) (Py.join dir name) = false) as Hfree.
    { intros dir Hdir Hne. apply exists_in_false, lookup_singleton_ne.
      intros Heq. apply (f_equal (Py.startswith "s")) in Heq.
      rewrite join_startswith in Heq; [discriminate Heq|done..]. }
    rewrite !Hfree; [reflexivity|vm_compute; congruence..].
Defined.
Lemma copy_walk_only_adds_witness :
  let run :=
    for_walk Package "dst" false true 4 Sample.walk 0 (World Sample.tree []) in
  run = (run.1, run.2) ∧ Sample.tree ⊆ files run.1.
Proof.
  intros run. split; [apply surjective_pairing|].
  apply (copy_walk_only_adds Package "dst" false true 4 Sample.walk 0
           (World Sample.tree []) run.1 run.2).
  apply surjective_pairing.
Defined.

Lemma regular_file_gives_positive_frequency_witness :
  ("src", "f2.jpg") ∈ walk_files Sample.walk ∧
  isfile_in Sample.tree (Py.join "src" "f2.jpg") = true ∧
  ∃ total_file_count,
    getNumberOfFilesInFolderRecursively Sample.walk (World Sample.tree [])
    = (World Sample.tree [], Ok total_file_count) ∧
    0 < total_file_count ∧ 0 < log_frequency total_file_count.
Proof.
  assert (("src", "f2.jpg") ∈ walk_files Sample.walk) as Hin.
  { apply list_elem_of_In. vm_compute. auto. }
  split; [exact Hin|]. split; [vm_compute; reflexivity|].
  apply (regular_file_gives_positive_frequency Sample.walk
           (World Sample.tree []) "src" "f2.jpg" Hin).
  vm_compute; reflexivity.
Defined.

End Witnesses.

(** * The timestamp resolver *)

Section ResolverFacts.
Import Resolver.

Lemma lex_leb_refl (a : list N) : lex_leb a a = true.
Proof.
  induction a as [|x a IH]; [done|]. simpl. by rewrite N.compare_refl.
Qed.

Lemma lex_leb_total (a b : list N) : lex_leb a b = true ∨ lex_leb b a = true.
Proof.
  revert b. induction a as [|x a IH]; intros [|y b]; simpl; auto.
  rewrite (N.compare_antisym x y).
  destruct (N.compare_spec x y); simpl; auto.
Qed.

Lemma lex_leb_trans (a b c : list N) :
  lex_leb a b = true → lex_leb b c = true → lex_leb a c = true.
Proof.
  revert b c. induction a as [|x a IH]; intros [|y b] [|z c]; simpl; try done.
  destruct (N.compare_spec x y) as [->|Hxy|Hxy]; [| |done].
  - destruct (N.compare_spec y z); [apply IH|done..].
  - destruct (N.compare_spec y z) as [<-|Hyz|Hyz]; [| |done].
    + intros _ _. by apply N.compare_lt_iff in Hxy as ->.
    + intros _ _. assert (x < z)%N as ->%N.compare_lt_iff by lia. done.
Qed.

Lemma earlier_cases (a b : struct_time) :
  (earlier a b = a ∨ earlier a b = b) ∧
  time_leb (earlier a b) a = true ∧ time_leb (earlier a b) b = true.
Proof.
  unfold earlier, time_leb. destruct (lex_leb (time_key a) _) eqn:E.
  - auto using lex_leb_refl.
  - destruct (lex_leb_total (time_key a) (time_key b)); [congruence|].
    auto using lex_leb_refl.
Qed.

Lemma foldl_earlier (t : struct_time) (l : list struct_time) :
  foldl earlier t l ∈ t :: l ∧
  ∀ x, x ∈ t :: l → time_leb (foldl earlier t l) x = true.
Proof.
  revert t. induction l as [|a l IH]; intros t; simpl.
  - split; [left|]. intros x ->%list_elem_of_singleton. apply lex_leb_refl.
  - destruct (IH (earlier t a)) as [Hin Hle].
    destruct (earlier_cases t a) as (Hcase & Hta & Haa).
    split.
    + apply elem_of_cons in Hin as [-> | Hin].
      * destruct Hcase as [-> | ->]; [left | right; left].
      * right. by right.
    + intros x Hx.
      assert (time_leb (foldl earlier (earlier t a) l) (earlier t a) = true)
        as Hm by (apply Hle; left).
      apply elem_of_cons in Hx as [-> | [-> | Hx]%elem_of_cons].
      * by eapply lex_leb_trans.
      * by eapply lex_leb_trans.
      * apply Hle. by right.
Qed.

Lemma minimum_spec (l : list struct_time) :
  match minimum l with
  | None => l = []
  | Some t => t ∈ l ∧ ∀ x, x ∈ l → time_leb t x = true
  end.
Proof. destruct l as [|t l]; [done|]. apply foldl_earlier. Qed.

Lemma parsed_candidates_cons `{External} (f : string) (fields : list string)
    (candidates : gmap string string) :
  parsed_candidates (f :: fields) candidates
  = match candidates !! f ≫= λ raw, strptime raw "%Y:%m:%d %H:%M:%S" with
    | Some t => t :: parsed_candidates fields candidates
    | None => parsed_candidates fields candidates
    end.
Proof. reflexivity. Qed.

(** C6: the resolver is a function of the recognised fields of its
    mapping alone; what it returns is one of the candidates that parse in
    the fixed format and no later than any of them, and it returns
    "unknown" exactly when none parses. *)
Theorem resolve_returns_the_earliest `{External} (fields : list string)
    (candidates : gmap string string) :
  match resolve fields candidates with
  | None => parsed_candidates fields candidates = []
  | Some t =>
      t ∈ parsed_candidates fields candidates ∧
      ∀ x, x ∈ parsed_candidates fields candidates → time_leb t x = true
  end ∧
  ∀ candidates' : gmap string string,
    (∀ field, field ∈ fields → candidates' !! field = candidates !! field) →
    resolve fields candidates' = resolve fields candidates.
Proof.
  split; [apply minimum_spec|].
  intros candidates' Hsame. unfold resolve. f_equal.
  induction fields as [|f fields IH]; [done|].
  rewrite !parsed_candidates_cons, (Hsame f) by left. rewrite IH; [done|].
  intros field Hf. apply Hsame. by right.
Qed.

End ResolverFacts.

(** * The capacity partitioner *)

Section PartitionerFacts.
Import Partitioner.

Lemma groups_length (fuel size : nat) (l : list string) :
  Forall (λ g, length g ≤ size) (groups fuel size l).
Proof.
  revert l. induction fuel as [|fuel IH]; intros [|f l]; simpl; try done.
  constructor; [|apply IH]. rewrite length_take. lia.
Qed.

(** With a positive size and fuel for every file, the groups hold all the
    files in their order. *)
Lemma groups_concat (fuel size : nat) (l : list string) :
  0 < size → length l ≤ fuel → concat (groups fuel size l) = l.
Proof.
  intros Hsize. revert l. induction fuel as [|fuel IH]; intros [|f l] Hfuel;
    simpl in *; try done; [lia|].
  rewrite IH; [apply take_drop|]. rewrite length_drop. simpl. lia.
Qed.

Lemma numbered_compliant (cap : positive) (n : nat) (gs : list (list string)) :
  Forall (λ g, length g ≤ Pos.to_nat cap) gs →
  forallb (λ d, compliant cap d.2) (numbered n gs) = true.
Proof.
  intros Hgs. revert n. induction Hgs as [|g gs Hg _ IH]; intros n; [done|].
  simpl. rewrite IH, andb_true_r, andb_true_r. by apply Nat.leb_le.
Qed.

(** The partitioning of a sub-directory under its name. *)
Let sub (cap : positive) (d : string * tree) : option (string * tree) :=
  t' ← partition cap d.2; Some (d.1, t').

Lemma partition_node (cap : positive) (members : list string)
    (subdirs : list (string * tree)) :
  partition cap (Node members subdirs)
  = (subdirs' ← mapM (sub cap) subdirs;
     if length members <=? Pos.to_nat cap then Some (Node members subdirs')
     else
       let new := numbered 1 (groups (length members) (Pos.to_nat cap) members) in
       if creatable new members subdirs
       then Some (Node [] (subdirs' ++ new))
       else None).
Proof. reflexivity. Qed.

Lemma sub_Some (cap : positive) (d d' : string * tree) :
  sub cap d = Some d' ↔ d'.1 = d.1 ∧ partition cap d.2 = Some d'.2.
Proof.
  unfold sub. destruct d as [name t], d' as [name' t']. simpl.
  destruct (partition cap t) as [t0|]; simpl; [|by split; [|intros []]].
  split; [by intros [= <- <-] | by intros [-> [= ->]]].
Qed.

(** The sub-directories keep their names. *)
Lemma sub_names (cap : positive) (subdirs subdirs' : list (string * tree)) :
  mapM (sub cap) subdirs = Some subdirs' → subdirs'.*1 = subdirs.*1.
Proof.
  intros Hsub%mapM_Some_1.
  induction Hsub as [|d d' l l' [Hd _]%sub_Some _ IH]; [done|].
  rewrite !fmap_cons. by f_equal.
Qed.

Lemma compliant_fixed (cap : positive) (dir : string) (t : tree) :
  compliant cap t = true → partition cap t = Some t ∧ moves cap dir t = [].
Proof.
  revert dir. induction t as [members subdirs IH] using tree_ind'.
  intros dir. simpl compliant. intros [Hm Hsub]%andb_true_iff.
  rewrite partition_node.
  assert (mapM (sub cap) subdirs = Some subdirs
          ∧ flat_map (λ d, moves cap (Py.join dir d.1) d.2) subdirs = [])
    as [-> Hmoves].
  { split.
    - apply mapM_Some_2, Forall_Forall2_diag.
      induction IH as [|[name t] subdirs Hd _ IHsub]; [done|].
      simpl in Hsub. apply andb_true_iff in Hsub as [Hc Hsub].
      constructor; [|by apply IHsub].
      apply sub_Some. split; [done|]. by apply (Hd dir).
    - induction IH as [|[name t] subdirs Hd _ IHsub]; [done|].
      simpl in Hsub. apply andb_true_iff in Hsub as [Hc Hsub]. simpl.
      destruct (Hd (Py.join dir name) Hc) as [_ Hmv]. simpl in Hmv.
      rewrite Hmv. by apply IHsub. }
  simpl. by rewrite Hmoves, Hm.
Qed.

Lemma partition_compliant (cap : positive) (t t' : tree) :
  partition cap t = Some t' → compliant cap t' = true.
Proof.
  revert t'. induction t as [members subdirs IH] using tree_ind'. intros t'.
  rewrite partition_node.
  destruct (mapM (sub cap) subdirs) as [subdirs'|] eqn:E; [|done].
  apply mapM_Some_1 in E.
  assert (forallb (λ d, compliant cap d.2) subdirs' = true) as Hsub.
  { induction E as [|d d' l l' [_ Hd]%sub_Some _ IHE]; [done|].
    apply Forall_cons in IH as [Hhead Htail]. simpl.
    by rewrite (Hhead _ Hd), IHE. }
  simpl. destruct (length members <=? Pos.to_nat cap) eqn:Elen.
  - intros [= <-]. simpl. by rewrite Elen, Hsub.
  - destruct (creatable _ _ _); [|done]. intros [= <-]. simpl.
    rewrite forallb_app, Hsub. simpl. apply numbered_compliant, groups_length.
Qed.

(** ** Names *)

Lemma numbered_names (n : nat) (gs : list (list string)) :
  (numbered n gs).*1 = Py.str <$> seq n (length gs).
Proof.
  revert n. induction gs as [|g gs IH]; intros n; [done|].
  simpl numbered. simpl length. simpl seq. rewrite !fmap_cons. by rewrite IH.
Qed.

Lemma numbered_NoDup (n : nat) (gs : list (list string)) :
  NoDup (numbered n gs).*1.
Proof.
  rewrite numbered_names. apply NoDup_fmap_2; [|apply NoDup_seq].
  unfold Py.str. apply _.
Qed.

Lemma groups_NoDup (fuel size : nat) (l : list string) :
  NoDup l → Forall NoDup (groups fuel size l).
Proof.
  revert l. induction fuel as [|fuel IH]; intros [|f l] Hl; simpl; try done.
  constructor.
  - eapply sublist_NoDup; [done | apply sublist_take].
  - apply IH. eapply sublist_NoDup; [done | apply sublist_drop].
Qed.

Lemma numbered_well_formed (n : nat) (gs : list (list string)) :
  Forall NoDup gs → forallb (λ d, well_formed d.2) (numbered n gs) = true.
Proof.
  intros Hgs. revert n. induction Hgs as [|g gs Hg _ IH]; intros n; [done|].
  simpl. rewrite IH, !andb_true_r. apply bool_decide_eq_true.
  unfold names. simpl. by rewrite app_nil_r.
Qed.

Lemma creatable_spec (new : list (string * tree)) (members : list string)
    (subdirs : list (string * tree)) :
  creatable new members subdirs = true →
  ∀ x, x ∈ new.*1 → x ∉ names members subdirs.
Proof.
  unfold creatable. induction new as [|d new IH]; simpl.
  { intros _ x Hx. by apply not_elem_of_nil in Hx. }
  intros [Hd Hnew]%andb_true_iff x [->|Hx]%elem_of_cons; [|by apply IH].
  apply negb_true_iff in Hd. by apply bool_decide_eq_false in Hd.
Qed.

(** The output of the partitioner on a tree that a file system can hold
    is such a tree. *)
Lemma partition_well_formed (cap : positive) (t t' : tree) :
  well_formed t = true → partition cap t = Some t' → well_formed t' = true.
Proof.
  revert t'. induction t as [members subdirs IH] using tree_ind'. intros t'.
  simpl well_formed. intros [Hnames Hsub]%andb_true_iff.
  apply bool_decide_eq_true in Hnames. rewrite partition_node.
  destruct (mapM (sub cap) subdirs) as [subdirs'|] eqn:E; [|done].
  pose proof (sub_names _ _ _ E) as Hsame. apply mapM_Some_1 in E.
  assert (forallb (λ d, well_formed d.2) subdirs' = true) as Hsub'.
  { clear Hsame Hnames.
    induction E as [|d d' l l' [_ Hd]%sub_Some _ IHE]; [done|].
    apply Forall_cons in IH as [Hhead Htail]. simpl in Hsub.
    apply andb_true_iff in Hsub as [Hwf Hsub]. simpl.
    by rewrite (Hhead _ Hwf Hd), IHE. }
  simpl. destruct (length members <=? Pos.to_nat cap).
  - intros [= <-]. simpl. rewrite Hsub', andb_true_r.
    apply bool_decide_eq_true. unfold names in *. by rewrite Hsame.
  - destruct (creatable _ _ _) eqn:Ecreate; [|done]. intros [= <-].
    pose proof (creatable_spec _ _ _ Ecreate) as Hfresh.
    unfold names in Hnames. apply NoDup_app in Hnames as (Hm & _ & Hs).
    simpl. rewrite forallb_app, Hsub'. simpl.
    rewrite numbered_well_formed by (by apply groups_NoDup).
    rewrite andb_true_r. apply bool_decide_eq_true.
    unfold names. simpl. rewrite fmap_app, Hsame. apply NoDup_app.
    split; [done|]. split; [|apply numbered_NoDup].
    intros x Hx Hnew. apply (Hfresh x Hnew). unfold names.
    apply elem_of_app. by right.
Qed.

(** The partitioner has a result exactly on the trees in which the
    sub-directories to be created are new. *)
Lemma partition_defined (cap : positive) (t : tree) :
  is_Some (partition cap t) ↔ clash_free cap t = true.
Proof.
  induction t as [members subdirs IH] using tree_ind'.
  rewrite partition_node. simpl clash_free.
  assert (is_Some (mapM (sub cap) subdirs)
          ↔ forallb (λ d, clash_free cap d.2) subdirs = true) as Hsub.
  { rewrite mapM_is_Some.
    induction IH as [|[name t] subdirs Hd _ IHsub]; [done|].
    rewrite Forall_cons, IHsub. simpl. rewrite andb_true_iff, <-Hd.
    unfold sub, compose. simpl. destruct (partition cap t) as [t0|]; simpl.
    - split; intros [_ ?]; split; eauto.
    - split; intros [[? ?] _]; done. }
  rewrite andb_true_iff, <-Hsub.
  destruct (mapM (sub cap) subdirs) as [subdirs'|]; simpl; cycle 1.
  { split; [by intros [? ?] | by intros [[? ?] _]]. }
  destruct (length members <=? Pos.to_nat cap); simpl; [by split; eauto|].
  destruct (creatable _ _ _); split; eauto; by intros [? ?].
Qed.


(** The scenario of the specification at a smaller scale: seven files
    and a cap of three give groups of three, three and one file. *)
Example partition_seven_by_three :
  partition 3 (Node ["a"; "b"; "c"; "d"; "e"; "f"; "g"] [])
  = Some (Node [] [("1", Node ["a"; "b"; "c"] []);
                   ("2", Node ["d"; "e"; "f"] []);
                   ("3", Node ["g"] [])]).
Proof. reflexivity. Qed.

(** A directory that is over the cap and holds a sub-directory named [1]:
    the sub-directory [1] cannot be created. *)
Example partition_name_taken :
  partition 3 (Node ["a"; "b"; "c"; "d"] [("1", Node ["x"; "y"; "z"] [])])
  = None.
Proof. reflexivity. Qed.


End PartitionerFacts.

Section ResolverWitness.
Import Resolver.
#[local] Existing Instance Sample.library.

Lemma resolve_returns_the_earliest_witness :
  let fields :=
    ["EXIF DateTimeOriginal"; "EXIF DateTimeDigitized"; "Image DateTime"] in
  let candidates : gmap string string :=
    {[ "EXIF DateTimeOriginal" := "2021:12:31 23:58:00";
       "EXIF DateTimeDigitized" := "2021:12:31 23:57:30";
       "Image DateTime" := "yesterday" ]} in
  let t := StructTime 2021 12 31 23 57 30 in
  resolve fields candidates = Some t ∧
  (∀ x, x ∈ parsed_candidates fields candidates → time_leb t x = true) ∧
  resolve fields (<["Make" := "Canon"]> candidates) = resolve fields candidates.
Proof.
  intros fields candidates t.
  assert (resolve fields candidates = Some t) as E by (vm_compute; reflexivity).
  pose proof (resolve_returns_the_earliest fields candidates) as [Hmin Hpure].
  rewrite E in Hmin. split; [exact E|]. split; [exact (proj2 Hmin)|].
  apply Hpure. intros field Hf. apply lookup_insert_ne.
  intros <-. vm_compute in Hf. 
  repeat (apply elem_of_cons in Hf as [Hf|Hf]; [discriminate Hf|]).
  by apply not_elem_of_nil in Hf.
Defined.

End ResolverWitness.


(** * Exceptions of the copy walk *)

Section WalkFacts.
Context `{External}.
Variable d : driver.
Variable destination : string.
Variables keep dt : bool.

(** The choice of a name raises only when the date-time policy cannot
    open the source file. *)
Lemma choose_file_name_raise root file n w w' e :
  choose_file_name d destination keep dt root file n w = (w', Raise e) →
  keep = false ∧ dt = true ∧
  ((e = FileNotFoundError (Py.join root file)
    ∧ files w !! Py.join root file = None)
   ∨ (e = IsADirectoryError (Py.join root file)
      ∧ files w !! Py.join root file = Some Dir)).
Proof.
  unfold choose_file_name. destruct keep; [done|]. destruct dt; cycle 1.
  { by destruct (Py.truthy _). }
  unfold mbind, io_bind, open_rb, gets.
  destruct (files w !! Py.join root file) as [[|image]|] eqn:Esrc.
  - intros [= <- <-]. auto.
  - destruct (strptime _ _) as [t|]; [|done].
    set (ct := strftime _ t).
    change (ct +:+ "." +:+ Py.lower (extension_of d file))
      with (candidate_name ct (extension_of d file) 0).
    intros Hrun. pose proof (probe_fuel_enough _ _ _ _ _ _ Hrun) as Hfuel.
    apply probe_spec in Hrun as [_ [(k & _ & [=] & _) | [[= ->] _]]]. done.
  - intros [= <- <-]. auto.
Qed.

(** A step raises for a source that is not a regular file, or for a
    destination that does not exist and has no directory for a parent:
    the directory of the file, or the path of its copy. *)
Lemma copy_file_raise root file n w w' e :
  copy_file d destination keep dt root file n w = (w', Raise e) →
  let dest_directory := dest_directory_of d destination file in
  (e = FileNotFoundError (Py.join root file)
   ∧ files w' !! Py.join root file = None)
  ∨ (e = IsADirectoryError (Py.join root file)
     ∧ files w' !! Py.join root file = Some Dir)
  ∨ ∃ p, (p = dest_directory ∨ ∃ file_name, p = Py.join dest_directory file_name)
      ∧ files w' !! p = None ∧ parent_error (files w') p = Some e.
Proof.
  intros (w1 & rd & Hdir & Hstep)%copy_file_step dd. fold dd in Hdir, Hstep.
  destruct rd as [[]|e'].
  - destruct Hstep as (rn & Hname & Hstep). destruct rn as [name|e''].
    + destruct Hstep as (ru & Hcopy & Hr). destruct ru as [[]|e'']; [done|].
      injection Hr as <-.
      apply copy_unless_exists_raise in Hcopy
        as (-> & Hfree & [Hsrc | [Hsrc | [_ Hparent]]]); [auto..|].
      right. right. exists (Py.join dd name). eauto.
    + destruct Hstep as [-> [= <-]].
      apply choose_file_name_raise in Hname as (_ & _ & [Hc | Hc]); auto.
  - destruct Hstep as [-> [= <-]].
    apply ensure_dir_raise in Hdir as (-> & Hfree & Hparent).
    right. right. exists dd. auto.
Qed.

Lemma copy_file_ok root file n w w' m :
  copy_file d destination keep dt root file n w = (w', Ok m) →
  m = n + 1 ∧ exists_in (files w') (dest_directory_of d destination file) = true.
Proof.
  intros (_ & evs & _ & _ & _ & Hok)%copy_file_calls.
  by destruct (Hok m eq_refl) as (-> & Hdir & _).
Qed.

Variable log_frequency_file_count : nat.

Abbreviation for_flat :=
  (for_flat d destination keep dt log_frequency_file_count).

Lemma for_flat_raise l n w w' e :
  for_flat l n w = (w', Raise e) →
  (e = ZeroDivisionError ∧ log_frequency_file_count = 0 ∧ l ≠ [])
  ∨ ∃ root file, (root, file) ∈ l ∧
      ((e = FileNotFoundError (Py.join root file)
        ∧ files w' !! Py.join root file = None)
       ∨ (e = IsADirectoryError (Py.join root file)
          ∧ files w' !! Py.join root file = Some Dir)
       ∨ ∃ p, (p = dest_directory_of d destination file
               ∨ ∃ file_name,
                   p = Py.join (dest_directory_of d destination file) file_name)
           ∧ files w' !! p = None ∧ parent_error (files w') p = Some e).
Proof.
  revert n w. induction l as [|[root file] rest IH]; intros n w; [done|].
  rewrite for_flat_cons.
  destruct (copy_file _ _ _ _ _ _ _ _) as [w1 [n1|e1]] eqn:Estep.
  - destruct (_ =? 0) eqn:Efreq.
    + intros [= <- <-]. left. by apply Nat.eqb_eq in Efreq.
    + intros [Hz | (root' & file' & Hin & Hcases)]%IH.
      * left. by destruct Hz as (-> & -> & _).
      * right. exists root', file'. split; [by right | done].
  - intros [= <- <-]. right. exists root, file. split; [left|].
    by apply copy_file_raise in Estep.
Qed.

(** What a walk that ends has done: it has counted every file, the
    frequency was not 0 if there was a file, and the directory of every
    file exists. *)
Lemma for_flat_ok l n w w' m :
  for_flat l n w = (w', Ok m) →
  m = n + length l ∧ (l ≠ [] → log_frequency_file_count ≠ 0) ∧
  ∀ root file, (root, file) ∈ l →
    exists_in (files w') (dest_directory_of d destination file) = true.
Proof.
  revert n w. induction l as [|[root file] rest IH]; intros n w.
  { intros [= <- <-]. split; [simpl; lia|]. split; [done|].
    intros ?? Hin. by apply not_elem_of_nil in Hin. }
  rewrite for_flat_cons.
  destruct (copy_file _ _ _ _ _ _ _ _) as [w1 [n1|e1]] eqn:Estep; [|done].
  apply copy_file_ok in Estep as [-> Hdir].
  destruct (_ =? 0) eqn:Efreq; [done|]. apply Nat.eqb_neq in Efreq.
  intros Hrun. pose proof Hrun as (-> & _ & Hdirs)%IH.
  split; [simpl; lia|]. split; [done|].
  intros root' file' [[= -> ->] | Hin]%elem_of_cons; [|by eapply Hdirs].
  eapply exists_in_mono; [|exact Hdir].
  by apply for_flat_spec in Hrun as [Hgrow _].
Qed.

End WalkFacts.

(** * Further properties of the copy walk *)


(** A walk over regular files with plain names ends, having counted them
    all, in a destination that is a directory in which no regular file
    has the name of a directory of the walk. *)
Lemma for_flat_ends `{External} (d : driver) (destination : string)
    (keep dt : bool) (log_frequency_file_count : nat)
    (l : list (string * string)) (n : nat) (w : world) :
  Py.endswith "/" destination = false →
  (∀ t, no_char "/" (strftime "%Y%m%d_%H%M%S" t) = true) →
  (l ≠ [] → log_frequency_file_count ≠ 0) →
  isdir_in (files w) destination = true →
  (∀ root file, (root, file) ∈ l →
     isfile_in (files w) (Py.join root file) = true ∧
     no_char "/" file = true ∧
     isfile_in (files w) (dest_directory_of d destination file) = false) →
  ∃ w', for_flat d destination keep dt log_frequency_file_count l n w
        = (w', Ok (n + length l)).
Proof.
  intros Hspell Hct Hfreq.
  assert (l = [] ∨ log_frequency_file_count ≠ 0) as [-> | Hf].
  { destruct l; [by left | right; by apply Hfreq]. }
  { intros _ _. exists w. simpl. by rewrite Nat.add_0_r. }
  clear Hfreq. revert n w. induction l as [|[root file] rest IH];
    intros n w Hdst Hl.
  { exists w. simpl. by rewrite Nat.add_0_r. }
  destruct (Hl root file) as (Hreg & Hsep & Hfile); [left|].
  unfold isfile_in in Hreg.
  destruct (files w !! Py.join root file) as [[|c]|] eqn:Hsrc; try done.
  assert (∀ w1 file_name,
            files w1 !! Py.join root file = Some (File c) →
            choose_file_name d destination keep dt root file n w1
            = (w1, Ok file_name) →
            no_char "/" file_name = true) as Hplain.
  { intros w1 name _ Hname.
    eapply choose_file_name_plain; [exact Hsep | | exact Hname].
    intros image t _ _. apply Hct. }
  destruct (copy_file_ready d destination keep dt root file n w c
              Hspell Hdst Hsrc Hfile Hplain)
    as (w1 & name & w2 & _ & _ & _ & _ & _ & Hstep & _).
  pose proof (copy_file_files _ _ _ _ _ _ _ _ _ _ Hstep) as Hgrow.
  destruct (IH (n + 1) w2) as [w' Hrun].
  { by eapply isdir_in_mono. }
  { intros root' file' Hin.
    destruct (Hl root' file') as (Hreg' & Hsep' & Hfile'); [by right|].
    split; [by eapply isfile_in_mono|]. split; [done|].
    by eapply (copy_file_ready_keeps d destination keep dt root file n w c). }
  exists w'. rewrite for_flat_cons, Hstep.
  apply Nat.eqb_neq in Hf as ->. rewrite Hrun. f_equal. f_equal. simpl. lia.
Qed.



(** ** The sequential policy in a fresh destination *)

Section Sequential.
Context `{External}.
Variable d : driver.
Variable destination : string.
Variable log_frequency_file_count : nat.

Abbreviation target k file :=
  (Py.join (dest_directory_of d destination file) (sequential_name d k file)).

Lemma for_flat_sequential_fresh l n w :
  log_frequency_file_count ≠ 0 →
  Py.endswith "/" destination = false →
  isdir_in (files w) destination = true →
  (∀ k root file, l !! k = Some (root, file) →
     isfile_in (files w) (Py.join root file) = true
     ∧ isfile_in (files w) (dest_directory_of d destination file) = false
     ∧ files w !! target (n + k) file = None) →
  ∃ w', for_flat d destination false false log_frequency_file_count l n w
        = (w', Ok (n + length l)) ∧
    ∀ k root file, l !! k = Some (root, file) →
      files w' !! target (n + k) file = files w !! Py.join root file.
Proof.
  intros Hfreq Hspell. revert n w.
  induction l as [|[root file] rest IH]; intros n w Hdst Hl.
  { exists w. split; [simpl; by rewrite Nat.add_0_r|]. intros k ?? Hk.
    by destruct k. }
  destruct (Hl 0 root file eq_refl) as (Hreg & Hfile & Hfree).
  rewrite Nat.add_0_r in Hfree. unfold isfile_in in Hreg.
  destruct (files w !! Py.join root file) as [[|c]|] eqn:Esrc; try done.
  assert (∀ w1 file_name,
            files w1 !! Py.join root file = Some (File c) →
            choose_file_name d destination false false root file n w1
            = (w1, Ok file_name) →
            no_char "/" file_name = true) as Hplain.
  { intros w0 name _. rewrite choose_sequential. intros [= <-].
    apply sequential_name_no_sep. }
  destruct (copy_file_ready d destination false false root file n w c
              Hspell Hdst Esrc Hfile Hplain)
    as (w1 & name & w2 & _ & Hsame1 & Hname & _ & _ & Hstep & _ & Hsame & Hnew & _).
  rewrite choose_sequential in Hname. injection Hname as <-.
  assert (files w1 !! target n file = None) as Hfree1.
  { rewrite Hsame1; [done|]. intros Heq.
    by apply target_ne_directory in Heq; [|apply sequential_name_no_sep]. }
  destruct (Hnew Hfree1) as [Hfiles2 _].
  pose proof (copy_file_files _ _ _ _ _ _ _ _ _ _ Hstep) as Hgrow.
  destruct (IH (n + 1) w2) as (w' & Hrun & Hall).
  { by eapply isdir_in_mono. }
  { intros k root' file' Hk.
    destruct (Hl (S k) root' file' Hk) as (Hreg' & Hfile' & Hfree').
    replace (n + S k) with (n + 1 + k) in Hfree' by lia.
    split; [by eapply isfile_in_mono|]. split.
    - by eapply (copy_file_ready_keeps d destination false false root file n w c).
    - rewrite Hsame; [done| |].
      + intros Heq.
        by apply target_ne_directory in Heq; [|apply sequential_name_no_sep].
      + intros Heq. apply target_inj in Heq as [_ Heq];
          [|apply sequential_name_no_sep..].
        apply sequential_name_inj in Heq. lia. }
  exists w'. split.
  - rewrite for_flat_cons, Hstep.
    apply Nat.eqb_neq in Hfreq as ->. rewrite Hrun. f_equal. f_equal.
    simpl. lia.
  - intros [|k] root' file' Hk.
    + injection Hk as <- <-. rewrite Nat.add_0_r, Esrc.
      apply for_flat_spec in Hrun as [Hgrow' _].
      eapply lookup_weaken; [|exact Hgrow']. rewrite Hfiles2.
      apply lookup_insert_eq.
    + replace (n + S k) with (n + 1 + k) by lia. rewrite (Hall k root' file' Hk).
      destruct (Hl (S k) root' file' Hk) as [Hreg' _]. unfold isfile_in in Hreg'.
      destruct (files w !! Py.join root' file') as [[|c']|] eqn:E; try done.
      by rewrite (lookup_weaken _ _ _ _ E Hgrow).
Qed.

End Sequential.



(** ** A second run *)

Lemma choose_fixed `{External} d destination keep dt root file n w :
  keep = true ∨ dt = false →
  choose_file_name d destination keep dt root file n w
  = (w, Ok (fixed_name d keep n file)).
Proof.
  intros [-> | ->]; [done|]. destruct keep; [done|]. apply choose_sequential.
Qed.

(** A walk over files that are all in place changes nothing. *)
Lemma for_flat_in_place `{External} d destination keep dt freq l n w :
  keep = true ∨ dt = false →
  (l ≠ [] → freq ≠ 0) →
  (∀ k root file, l !! k = Some (root, file) →
     exists_in (files w) (dest_directory_of d destination file) = true ∧
     exists_in (files w)
       (Py.join (dest_directory_of d destination file)
                (fixed_name d keep (n + k) file)) = true) →
  for_flat d destination keep dt freq l n w = (w, Ok (n + length l)).
Proof.
  intros Hpolicy Hfreq.
  assert (l = [] ∨ freq ≠ 0) as [-> | Hf].
  { destruct l; [by left | right; by apply Hfreq]. }
  { intros _. simpl. by rewrite Nat.add_0_r. }
  clear Hfreq. revert n. induction l as [|[root file] rest IH]; intros n Hl.
  { simpl. by rewrite Nat.add_0_r. }
  destruct (Hl 0 root file eq_refl) as [Hdir Hfile].
  rewrite Nat.add_0_r in Hfile.
  assert (copy_file d destination keep dt root file n w = (w, Ok (n + 1)))
    as Hstep.
  { rewrite copy_file_unfold. cbv zeta. rewrite ensure_dir_run, Hdir.
    rewrite choose_fixed by done. by rewrite copy_unless_exists_run, Hfile. }
  rewrite for_flat_cons, Hstep.
  apply Nat.eqb_neq in Hf as Hf'. rewrite Hf', IH.
  - f_equal. f_equal. simpl. lia.
  - intros k root' file' Hk. replace (n + 1 + k) with (n + S k) by lia.
    by apply (Hl (S k) root' file').
Qed.

(** X10: under the keep-original and the sequential policy a second run
    of the copy walk over the same source changes nothing: after a walk
    that ended, the same walk from the world it left makes no call,
    leaves every file as it is and ends with the same count. *)
Theorem second_walk_changes_nothing `{External} (d : driver)
    (destination : string) (keep dt : bool) (log_frequency_file_count : nat)
    (walk : list (string * list string)) (n m : nat) (w w1 : world) :
  keep = true ∨ dt = false →
  for_walk d destination keep dt log_frequency_file_count walk n w
  = (w1, Ok m) →
  for_walk d destination keep dt log_frequency_file_count walk n w1
  = (w1, Ok m).
Proof.
  intros Hpolicy. rewrite !for_walk_flat. intros Hrun.
  pose proof Hrun as (-> & Hfreq & Hdirs)%for_flat_ok.
  apply for_flat_spec in Hrun as (_ & _ & Hok).
  destruct (Hok _ eq_refl) as [_ Hfiles].
  apply for_flat_in_place; [done..|].
  intros k root file Hk. split.
  - apply (Hdirs root file). by eapply list_elem_of_lookup_2.
  - destruct (Hfiles k root file Hk) as (wk & name & Hname & Hex).
    rewrite choose_fixed in Hname by done. by injection Hname as <-.
Qed.

(** ** One entry for every call *)

Lemma copy_file_size `{External} d destination keep dt root file n w w' r :
  copy_file d destination keep dt root file n w = (w', r) →
  ∃ evs, calls w' = calls w ++ evs ∧
         size (files w') = size (files w) + length evs.
Proof.
  intros (_ & evs & Hcalls & Hsize & _)%copy_file_calls. by exists evs.
Qed.

(** X11: every call of the copy walk makes one new entry: the file system
    grows by as many entries as the walk has logged calls, also when the
    walk ends in an exception. *)
Theorem copy_walk_adds_one_entry_per_call `{External} (d : driver)
    (destination : string) (keep dt : bool) (log_frequency_file_count : nat)
    (walk : list (string * list string)) (n : nat) (w w' : world)
    (r : outcome nat) :
  for_walk d destination keep dt log_frequency_file_count walk n w = (w', r) →
  ∃ evs, calls w' = calls w ++ evs ∧
         size (files w') = size (files w) + length evs.
Proof.
  rewrite for_walk_flat. revert n w.
  induction (walk_files walk) as [|[root file] rest IH]; intros n w.
  { intros [= <- _]. exists []. by rewrite app_nil_r, Nat.add_0_r. }
  rewrite for_flat_cons.
  destruct (copy_file _ _ _ _ _ _ _ _) as [w1 r1] eqn:Estep.
  apply copy_file_size in Estep as (evs1 & Hc1 & Hs1).
  destruct r1 as [n1|e]; [|intros [= <- _]; by exists evs1].
  destruct (_ =? 0); [intros [= <- _]; by exists evs1|].
  intros (evs2 & Hc2 & Hs2)%IH. exists (evs1 ++ evs2).
  rewrite Hc2, Hc1, Hs2, Hs1, length_app, <-app_assoc. split; [done | lia].
Qed.

(** ** The directories of the destination *)

(** X9: the directory of a file is a direct child of the destination,
    whatever the name of the file: it is the destination joined with one
    name that is not empty and holds no separator (the extension, which
    [splitext] takes after the last separator, or the fixed name for the
    files with no extension). *)
Theorem destination_directory_is_a_direct_child (d : driver)
    (destination file : string) :
  dest_directory_of d destination file
  = Py.join destination (bucket_of d file) ∧
  Py.truthy (bucket_of d file) = true ∧
  no_char "/" (bucket_of d file) = true.
Proof.
  split; [apply dest_directory_join | apply bucket_plain].
Qed.

(** X8: for ASCII names the directory does not depend on the case of the
    extension: two files whose extensions differ in letter case only go
    to the same directory, whose name is in upper case in the script and
    in lower case in the package. *)
Theorem directory_ignores_the_case_of_the_extension (d : driver)
    (destination file file' : string) :
  Py.isascii file = true → Py.isascii file' = true →
  (Py.lower (Py.drop 1 (Py.splitext file).2)
   = Py.lower (Py.drop 1 (Py.splitext file').2) →
   dest_directory_of d destination file
   = dest_directory_of d destination file') ∧
  ext_case d (bucket_of d file) = bucket_of d file.
Proof.
  intros Hfile%raw_extension_ascii Hfile'%raw_extension_ascii. split.
  - intros Hcase. unfold dest_directory_of, extension_of. cbv zeta.
    assert (ext_case d (Py.drop 1 (Py.splitext file).2)
            = ext_case d (Py.drop 1 (Py.splitext file').2)) as ->; [|done].
    destruct d; unfold ext_case; [|done].
    by rewrite <-(upper_of_lower (Py.drop 1 (Py.splitext file).2)), Hcase,
      upper_of_lower.
  - unfold bucket_of, extension_of. cbv zeta.
    destruct (Py.truthy _); destruct d; unfold ext_case, no_extension_dir;
      auto using upper_idem, lower_lower.
Qed.

(** ** Which directory a name goes to *)

(** The extension of a name [stem.ext]. *)
Lemma splitext_stem_ext (a : ascii) (stem ext : string) :
  a ≠ "."%char → no_char "/" (String a stem) = true →
  no_char "." ext = true → no_char "/" ext = true →
  (Py.splitext (String a stem +:+ String "." ext)).2 = String "." ext.
Proof.
  intros Ha Hstem Hdot Hsep. unfold Py.splitext. cbv zeta.
  assert (Py.rfind "/" (String a stem +:+ String "." ext) = (-1)%Z) as ->.
  { apply rfind_from_absent. rewrite no_char_append, Hstem, no_char_cons, Hsep.
    done. }
  assert (Py.rfind "." (String a stem +:+ String "." ext)
          = Z.of_nat (S (String.length stem))) as ->.
  { unfold Py.rfind. rewrite rfind_from_last by done. simpl. lia. }
  assert ((-1 <? Z.of_nat (S (String.length stem)))%Z = true) as ->
    by (apply Z.ltb_lt; lia).
  replace (Z.to_nat (Z.of_nat (S (String.length stem)) - (-1 + 1)))
    with (S (String.length stem)) by lia.
  change (Z.to_nat (-1 + 1)) with 0. rewrite Nat2Z.id.
  assert (Py.has_non_dot (S (String.length stem))
            (Py.drop 0 (String a stem +:+ String "." ext)) = true) as ->.
  { rewrite append_cons. simpl. by apply Ascii.eqb_neq in Ha as ->. }
  cbn [snd]. apply (drop_length_append (String a stem)).
Qed.

(** X12: a name [stem.ext], whose stem does not start with a dot and whose
    extension holds no further dot, goes to the directory of [ext] in the
    case of the driver, or to the directory of the files with no extension
    when [ext] is empty; so does every name with no dot at all. *)
Theorem directory_of_a_name (d : driver) (destination : string) :
  (∀ (a : ascii) (stem ext : string),
     a ≠ "."%char → no_char "/" (String a stem) = true →
     no_char "." ext = true → no_char "/" ext = true →
     dest_directory_of d destination (String a stem +:+ String "." ext)
     = Py.join destination
         (if Py.truthy ext then ext_case d ext else no_extension_dir d)) ∧
  (∀ file, no_char "." file = true →
     dest_directory_of d destination file
     = Py.join destination (no_extension_dir d)).
Proof.
  split.
  - intros a stem ext Ha Hstem Hdot Hsep.
    unfold dest_directory_of, extension_of. cbv zeta.
    rewrite splitext_stem_ext by done. change (Py.drop 1 (String "." ext)) with ext.
    assert (Py.truthy (ext_case d ext) = Py.truthy ext) as ->
      by (destruct d; [apply truthy_upper | apply truthy_lower]).
    by destruct (Py.truthy ext).
  - intros file Hdot. unfold dest_directory_of, extension_of. cbv zeta.
    assert ((Py.splitext file).2 = EmptyString) as ->; [|by destruct d].
    unfold Py.splitext. cbv zeta. unfold Py.rfind at 2.
    rewrite rfind_from_absent by done.
    assert ((Py.rfind "/" file <? -1)%Z = false) as ->; [|done].
    apply Z.ltb_ge. unfold Py.rfind.
    destruct (rfind_from_spec "/" file 0 (-1)) as [[Hr _] | [Hr _]];
      cbv zeta in Hr; lia.
Qed.

(** ** The count of the files, exactly *)

Lemma count_in_filter (fs : gmap string entry) (dirpath : string)
    (filenames : list string) (acc : nat) :
  foldl (λ numberOfFiles f,
           let fp := Py.join dirpath f in
           if isfile_in fs fp then numberOfFiles + 1 else numberOfFiles)
        acc filenames
  = acc + length (List.filter (λ p, isfile_in fs (Py.join p.1 p.2))
                              (map (pair dirpath) filenames)).
Proof.
  revert acc. induction filenames as [|f rest IH]; intros acc; [simpl; lia|].
  simpl. rewrite IH. destruct (isfile_in fs (Py.join dirpath f)); simpl; lia.
Qed.

(** X13: [getNumberOfFilesInFolderRecursively] leaves the world as it is
    and returns the number of the names of the walk that are regular
    files, which is at most the number of the names that the copy walk
    goes through. *)
Theorem count_is_the_number_of_regular_files
    (walk : list (string * list string)) (w : world) :
  let regular :=
    List.filter (λ p, isfile_in (files w) (Py.join p.1 p.2)) (walk_files walk) in
  getNumberOfFilesInFolderRecursively walk w = (w, Ok (length regular)) ∧
  length regular ≤ length (walk_files walk).
Proof.
  intros regular. split; [|apply List.filter_length_le].
  unfold getNumberOfFilesInFolderRecursively, gets. f_equal. f_equal.
  subst regular.
  assert (∀ acc, foldl (λ numberOfFiles '(dirpath, filenames),
                          foldl (λ numberOfFiles f,
                                   let fp := Py.join dirpath f in
                                   if isfile_in (files w) fp
                                   then numberOfFiles + 1 else numberOfFiles)
                                numberOfFiles filenames)
                       acc walk
                 = acc + length (List.filter
                                   (λ p, isfile_in (files w) (Py.join p.1 p.2))
                                   (walk_files walk))) as Hcount.
  { induction walk as [|[dirpath filenames] rest IH]; intros acc; [simpl; lia|].
    simpl. rewrite IH, count_in_filter, List.filter_app, length_app. lia. }
  apply (Hcount 0).
Qed.


(** * The sample library *)

Lemma pretty_N_no_char (c : ascii) (n : N) :
  (∀ digit, pretty_N_char digit ≠ c) → no_char c (pretty n) = true.
Proof.
  intros Hc. unfold pretty, pretty_N. destruct (decide _).
  - change "0" with (String (pretty_N_char 0) EmptyString).
    rewrite no_char_cons. cbn [no_char]. rewrite andb_true_r.
    apply negb_true_iff, Ascii.eqb_neq, Hc.
  - by apply pretty_N_go_no_char.
Qed.

Lemma zeros_no_sep (k : nat) :
  no_char "/" (String.concat "" (replicate k "0")) = true.
Proof.
  induction k as [|k IH]; [done|]. destruct k as [|k]; [done|].
  change (String.concat "" (replicate (S (S k)) "0"))
    with ("0" +:+ "" +:+ String.concat "" (replicate (S k) "0")).
  by rewrite !no_char_append, IH.
Qed.

Lemma pad_no_sep (width : nat) (n : N) : no_char "/" (Sample.pad width n) = true.
Proof.
  unfold Sample.pad. cbv zeta.
  by rewrite no_char_append, zeros_no_sep, (pretty_N_no_char _ _ digit_not_sep).
Qed.

(** The time that the sample library prints holds no separator. *)
Lemma sample_strftime_plain (t : struct_time) :
  no_char "/" (@strftime Sample.library "%Y%m%d_%H%M%S" t) = true.
Proof.
  change (@strftime Sample.library "%Y%m%d_%H%M%S" t) with (Sample.print_name t).
  unfold Sample.print_name.
  by rewrite !no_char_append, !pad_no_sep, (pretty_N_no_char _ _ digit_not_sep).
Qed.

Section MoreWitnesses.
#[local] Existing Instance Sample.library.

Lemma sample_walk_is_regular (root file : string) :
  (root, file) ∈ walk_files Sample.walk →
  isfile_in Sample.tree (Py.join root file) = true ∧
  no_char "/" file = true ∧
  isfile_in Sample.tree (dest_directory_of Package "dst" file) = false.
Proof.
  intros Hin. apply list_elem_of_In in Hin. vm_compute in Hin.
  destruct Hin as [[= <- <-] | [[= <- <-] | [[= <- <-] | [[= <- <-] | []]]]];
    repeat split; reflexivity.
Qed.





Lemma directory_ignores_the_case_of_the_extension_witness :
  Py.isascii "f1.JPG" = true ∧ Py.isascii "f2.jpg" = true ∧
  Py.lower (Py.drop 1 (Py.splitext "f1.JPG").2)
  = Py.lower (Py.drop 1 (Py.splitext "f2.jpg").2) ∧
  dest_directory_of Script "dst" "f1.JPG"
  = dest_directory_of Script "dst" "f2.jpg".
Proof.
  split; [vm_compute; reflexivity|]. split; [vm_compute; reflexivity|].
  split; [vm_compute; reflexivity|].
  apply (directory_ignores_the_case_of_the_extension Script "dst" "f1.JPG"
           "f2.jpg"); vm_compute; reflexivity.
Defined.

Lemma second_walk_changes_nothing_witness :
  let run :=
    for_walk Package "dst" true false 4 Sample.walk 0 (World Sample.tree []) in
  run = (run.1, Ok 4) ∧
  for_walk Package "dst" true false 4 Sample.walk 0 run.1 = (run.1, Ok 4).
Proof.
  intros run.
  assert (run = (run.1, Ok 4)) as Hrun by (vm_compute; reflexivity).
  split; [exact Hrun|].
  apply (second_walk_changes_nothing Package "dst" true false 4 Sample.walk 0 4
           (World Sample.tree []) run.1); [by left | exact Hrun].
Defined.

Lemma copy_walk_adds_one_entry_per_call_witness :
  let run :=
    for_walk Package "dst" false true 4 Sample.walk 0 (World Sample.tree []) in
  run = (run.1, run.2) ∧
  ∃ evs, calls run.1 = [] ++ evs ∧
         size (files run.1) = size Sample.tree + length evs.
Proof.
  intros run. split; [apply surjective_pairing|].
  apply (copy_walk_adds_one_entry_per_call Package "dst" false true 4
           Sample.walk 0 (World Sample.tree []) run.1 run.2).
  apply surjective_pairing.
Defined.

Lemma directory_of_a_name_witness :
  dest_directory_of Script "dst" ("photo" +:+ String "." "jpg")
  = Py.join "dst" "JPG" ∧
  dest_directory_of Package "dst" "README" = Py.join "dst" "no_extension".
Proof.
  split.
  - apply (proj1 (directory_of_a_name Script "dst") "p"%char "hoto" "jpg");
      [discriminate | reflexivity..].
  - apply (proj2 (directory_of_a_name Package "dst") "README"). reflexivity.
Defined.

End MoreWitnesses.
